(** * Data-Analysis-Tool: the comparison engine of [comparison_logic.py]

    A shallow embedding of the functions of [src/comparison_logic.py] that
    classify an ingestion table, reconcile facility names, analyse data
    quality and match records, together with the properties the
    specification states about them.

    Conventions of the embedding.
    - A pandas [DataFrame] is a [Table]: the ordered column names and the
      ordered rows, a row being the list of its cells in column order.
    - A cell is a string, a number or missing ([NaN]).  Numbers are
      integers ([Z]) with exact arithmetic, which is what numpy computes
      on [int64] and [float64] alike up to magnitude 2^52; wrap-around
      and rounding past that bound, and fractional values, are outside
      the model, and the properties that state the value of a difference
      or of a comparison of numbers assume that bound.
    - The columns of a [Table] are text headers; the classifier of the
      ingestion layout is also given on headers of any kind, where its
      [except] clause matters.
    - A Python [set] is a [gset]; the order in which [list(set(...))]
      enumerates it is not part of the model, so fields built that way
      stay sets.
    - A raised exception is a value [Raise e] of the monad [exc]; a
      [try ... except] block is a [match] on it.
    - [datetime.now()] is an explicit argument of the one function that
      reads the clock.
    - Tables stand for frames read from a sheet: a frame that has rows has
      at least one column. *)

From Stdlib Require Import ZArith String Ascii List Lia DecimalString.
From stdpp Require Import base decidable countable gmap sets list strings.

Local Open Scope string_scope.
Local Open Scope nat_scope.

(* ===================================================================== *)
(** ** Cells and tables *)
(* ===================================================================== *)

Inductive cell : Type :=
  | CStr (s : string)
  | CNum (z : Z)
  | CMissing.

#[global] Instance cell_eq_dec : EqDecision cell.
Proof. solve_decision. Defined.

Definition cell_encode (c : cell) : string + Z + unit :=
  match c with
  | CStr s => inl (inl s)
  | CNum z => inl (inr z)
  | CMissing => inr tt
  end.

Definition cell_decode (x : string + Z + unit) : cell :=
  match x with
  | inl (inl s) => CStr s
  | inl (inr z) => CNum z
  | inr _ => CMissing
  end.

#[global] Instance cell_countable : Countable cell.
Proof.
  refine (inj_countable' cell_encode cell_decode _).
  intros []; reflexivity.
Defined.

(** [pd.isnull] on one cell. *)
Definition isnull (c : cell) : bool :=
  match c with CMissing => true | _ => false end.

(** Python's [==] on two scalars, which is also what pandas applies
    element-wise in [series == scalar]: [NaN] equals nothing, itself
    included, and a string never equals a number.  On numbers this is
    equality of integers, which is what numpy computes, whether the two
    sides are [int64] or [float64], for integers of magnitude at most
    2^52; past that bound, and on fractional values, numpy rounds and
    this definition does not describe it: the properties that state what
    a comparison of numbers gives assume [numbers_exact]. *)
Definition py_eq (a b : cell) : bool :=
  match a, b with
  | CStr s, CStr s' => bool_decide (s = s')
  | CNum x, CNum y => bool_decide (x = y)
  | _, _ => false
  end.

Definition row : Type := list cell.

Record Table : Type := mkTable {
  columns : list string;
  rows : list row
}.

#[global] Instance Table_eq_dec : EqDecision Table.
Proof. solve_decision. Defined.

(** [name in df.columns] *)
Definition has_column (t : Table) (name : string) : bool :=
  bool_decide (name ∈ columns t).

Fixpoint index_of (name : string) (cols : list string) : option nat :=
  match cols with
  | [] => None
  | c :: cols' =>
      if bool_decide (c = name) then Some 0
      else S <$> index_of name cols'
  end.

(** The cell of a row at a position; a row that is too short reads as
    missing there. *)
Definition cell_at (r : row) (i : nat) : cell := default CMissing (r !! i).

(** ** Exceptions *)

Inductive exn : Type :=
  | KeyError (key : string)
  | TypeError.

Inductive exc (A : Type) : Type :=
  | Ok (a : A)
  | Raise (e : exn).
Arguments Ok {A} a.
Arguments Raise {A} e.

#[global] Instance exc_ret : MRet exc := λ A a, Ok a.
#[global] Instance exc_bind : MBind exc := λ A B f m,
  match m with
  | Ok a => f a
  | Raise e => Raise e
  end.

(** [row[name]] on a row yielded by [iterrows]: [KeyError] when the table
    has no such column. *)
Definition row_get (cols : list string) (r : row) (name : string) : exc cell :=
  match index_of name cols with
  | Some i => Ok (cell_at r i)
  | None => Raise (KeyError name)
  end.

(** [df[name]]: the column as a series. *)
Definition column (t : Table) (name : string) : exc (list cell) :=
  match index_of name (columns t) with
  | Some i => Ok (map (λ r, cell_at r i) (rows t))
  | None => Raise (KeyError name)
  end.

(** [df[mask]]: the rows at which the boolean mask holds. *)
Fixpoint select_rows (mask : list bool) (rs : list row) : list row :=
  match mask, rs with
  | b :: mask', r :: rs' =>
      if b then r :: select_rows mask' rs' else select_rows mask' rs'
  | _, _ => []
  end.

(** [series.sum()] of a boolean series. *)
Definition count_true (mask : list bool) : nat :=
  length (filter (λ b : bool, b = true) mask).

(* ===================================================================== *)
(** ** Strings *)
(* ===================================================================== *)

Fixpoint starts_with (p s : string) : bool :=
  match p, s with
  | EmptyString, _ => true
  | String _ _, EmptyString => false
  | String a p', String b s' => if Ascii.eqb a b then starts_with p' s' else false
  end.

(** Python's [needle in hay] on strings. *)
Fixpoint str_contains (needle hay : string) : bool :=
  starts_with needle hay ||
  match hay with
  | EmptyString => false
  | String _ hay' => str_contains needle hay'
  end.

(** [str(n)] for a count. *)
Definition show_nat (n : nat) : string :=
  NilEmpty.string_of_uint (Nat.to_uint n).

(* ===================================================================== *)
(** ** identify_resource_type, identify_ingestion_file_type *)
(* ===================================================================== *)

Inductive resource_type : Type :=
  | GHGEmissions      (* 'GHG Emissions' *)
  | UnknownResource.  (* 'Unknown' *)

Inductive ingestion_type : Type :=
  | MonthlyRows       (* 'Monthly Data in Rows' *)
  | MonthlyColumns    (* 'Monthly Data in Columns' *)
  | UnknownType.      (* 'Unknown' *)

#[global] Instance resource_type_eq_dec : EqDecision resource_type.
Proof. solve_decision. Defined.
#[global] Instance ingestion_type_eq_dec : EqDecision ingestion_type.
Proof. solve_decision. Defined.

(** The columns of a [Table] are text headers.  On them no statement of
    the two classifiers raises, and their [except] clauses are not
    entered: [identify_ingestion_file_type_headers], further down, is the
    second classifier on headers of any kind, with its [except] clause,
    and agrees with [identify_ingestion_file_type] on text headers. *)
Definition identify_resource_type (ingestion_df : Table) : resource_type :=
  if has_column ingestion_df "Scope" then GHGEmissions else UnknownResource.

Definition type1_indicators : list string :=
  ["Scope"; "Activity Type"; "Month"; "Year"; "Quantity"; "Unit"; "Resource Name"].

Definition type2_indicators : list string :=
  ["Scope"; "Activity Type"; "Resource"; "Units"].

Definition month_tokens : list string :=
  ["Apr-24"; "May-24"; "Jun-24"; "Jul-24"; "Aug-24"; "Sep-24"; "Oct-24";
   "Nov-24"; "Dec-24"; "Jan-25"; "Feb-25"].

(** [any(month in col for month in [...])] *)
Definition is_month_column (col : string) : bool :=
  existsb (λ month, str_contains month col) month_tokens.

Definition identify_ingestion_file_type (ingestion_df : Table) : ingestion_type :=
  let columns := columns ingestion_df in
  let has_facility :=
    bool_decide ("Facility Name" ∈ columns) || bool_decide ("Facility" ∈ columns) in
  if has_facility && forallb (λ col, bool_decide (col ∈ columns)) type1_indicators
  then MonthlyRows
  else if has_facility && forallb (λ col, bool_decide (col ∈ columns)) type2_indicators
  then
    let month_columns := filter (λ col, is_month_column col = true) columns in
    if 3 <=? length month_columns then MonthlyColumns else UnknownType
  else UnknownType.

(* ===================================================================== *)
(** ** compare_facility_names *)
(* ===================================================================== *)

Record FacilityComparison : Type := mkFacilityComparison {
  raw_facilities_count : nat;
  ingestion_facilities_count : nat;
  common_facilities_count : nat;
  missing_in_raw : gset cell;
  missing_in_ingestion : gset cell;
  missing_in_raw_count : nat;
  missing_in_ingestion_count : nat
}.

(** The dictionary [compare_facility_names] returns: either the single
    key ['error'] or the seven counts and sets.  [missing_in_raw] and
    [missing_in_ingestion] are the sets the code turns into lists; the
    order in which [list(...)] enumerates a set is not modelled, so the
    properties speak of their members and sizes only. *)
Inductive facility_result : Type :=
  | FacilityError (msg : string)
  | FacilityException (e : exn)   (* 'Error comparing facility names: ...' *)
  | FacilityOk (r : FacilityComparison).

(** [series.dropna()] *)
Definition dropna (s : list cell) : list cell :=
  filter (λ c, isnull c = false) s.

(** [set(df[name].dropna())] *)
Definition facility_set (t : Table) (name : string) : exc (gset cell) :=
  s ← column t name; mret (list_to_set (dropna s)).

Definition compare_facility_names (raw_data_df ingestion_df : Table) : facility_result :=
  if negb (has_column raw_data_df "Facility Name") then
    FacilityError "Facility Name column not found in raw data file"
  else
    let ingestion_facility_col :=
      if has_column ingestion_df "Facility Name" then Some "Facility Name"
      else if has_column ingestion_df "Facility" then Some "Facility"
      else None in
    match ingestion_facility_col with
    | None =>
        FacilityError "Neither Facility Name nor Facility column found in ingestion file"
    | Some col =>
        let body : exc FacilityComparison :=
          raw_facilities ← facility_set raw_data_df "Facility Name";
          ingestion_facilities ← facility_set ingestion_df col;
          let missing_in_raw := ingestion_facilities ∖ raw_facilities in
          let missing_in_ingestion := raw_facilities ∖ ingestion_facilities in
          mret {|
            raw_facilities_count := size raw_facilities;
            ingestion_facilities_count := size ingestion_facilities;
            common_facilities_count := size (raw_facilities ∩ ingestion_facilities);
            missing_in_raw := missing_in_raw;
            missing_in_ingestion := missing_in_ingestion;
            missing_in_raw_count := size missing_in_raw;
            missing_in_ingestion_count := size missing_in_ingestion
          |} in
        match body with
        | Ok r => FacilityOk r
        | Raise e => FacilityException e
        end
    end.

(* ===================================================================== *)
(** ** analyze_data_quality *)
(* ===================================================================== *)

(** [df[col]] for a column [col] drawn from [df.columns] itself. *)
Definition series (t : Table) (col : string) : list cell :=
  match column t col with
  | Ok s => s
  | Raise _ => []
  end.

(** [df[col].isnull().sum()] *)
Definition null_count (t : Table) (col : string) : nat :=
  count_true (map isnull (series t col)).

(** The values of a row on the columns of [subset], which are columns of
    the table. *)
Definition project (cols : list string) (subset : list string) (r : row) : list cell :=
  map (λ name, match row_get cols r name with Ok c => c | Raise _ => CMissing end) subset.

(** [duplicated(keep='first')] on the projected rows: a row is marked
    when an earlier row has the same projection.  Missing cells compare
    equal to each other here, unlike under [==]. *)
Fixpoint duplicated_first (seen keys : list (list cell)) : list bool :=
  match keys with
  | [] => []
  | k :: keys' => bool_decide (k ∈ seen) :: duplicated_first (k :: seen) keys'
  end.

(** [duplicated(keep=False)]: a row is marked when any other row, earlier
    or later, has the same projection. *)
Fixpoint duplicated_all (seen keys : list (list cell)) : list bool :=
  match keys with
  | [] => []
  | k :: keys' =>
      (bool_decide (k ∈ seen) || bool_decide (k ∈ keys'))
        :: duplicated_all (k :: seen) keys'
  end.

Inductive keep : Type := KeepFirst | KeepFalse.

(** [df.duplicated(subset=subset, keep=...)] *)
Definition duplicated (t : Table) (subset : list string) (k : keep) : list bool :=
  let keys := map (project (columns t) subset) (rows t) in
  match k with
  | KeepFirst => duplicated_first [] keys
  | KeepFalse => duplicated_all [] keys
  end.

Record QualityReport : Type := mkQualityReport {
  quality_issues : list string;
  duplicate_rows : option Table   (* [None] is Python's [None] *)
}.

Definition null_message (null_count : nat) (col : string) : string :=
  "Ingestion data has " ++ show_nat null_count ++ " null values in '" ++ col ++ "' column".

(** The three wordings of the duplicate issue, one per branch. *)
Definition duplicate_message (ty : ingestion_type) (duplicates : nat) : string :=
  match ty with
  | MonthlyRows =>
      "Ingestion data has " ++ show_nat duplicates
        ++ " duplicate rows (same values in all columns except Quantity)"
  | MonthlyColumns =>
      "Ingestion data has " ++ show_nat duplicates
        ++ " duplicate rows (same values in all columns except month columns)"
  | UnknownType =>
      "Ingestion data has " ++ show_nat duplicates ++ " completely duplicate rows"
  end.

(** The loop [for col in columns_to_check: ... quality_issues.append(...)]. *)
Fixpoint null_issues (t : Table) (columns_to_check : list string) : list string :=
  match columns_to_check with
  | [] => []
  | col :: rest =>
      let n := null_count t col in
      (if 0 <? n then [null_message n col] else []) ++ null_issues t rest
  end.

(** The statements the three branches of [analyze_data_quality] repeat
    with their own column lists and wording: the loop over
    [columns_to_check], then [duplicated(subset=duplicate_columns).sum()]
    and, when it is positive, the issue and the rows of
    [duplicated(subset=duplicate_columns, keep=False)]. *)
Definition check_nulls_and_duplicates (ingestion_df : Table)
    (columns_to_check duplicate_columns : list string) (message : nat → string)
  : QualityReport :=
  let quality_issues := null_issues ingestion_df columns_to_check in
  let duplicates := count_true (duplicated ingestion_df duplicate_columns KeepFirst) in
  if 0 <? duplicates then
    {| quality_issues := quality_issues ++ [message duplicates];
       duplicate_rows :=
         Some (mkTable (columns ingestion_df)
                 (select_rows (duplicated ingestion_df duplicate_columns KeepFalse)
                    (rows ingestion_df))) |}
  else
    {| quality_issues := quality_issues; duplicate_rows := None |}.

Definition analyze_data_quality (raw_data_df ingestion_df : Table) : QualityReport :=
  let ingestion_type := identify_ingestion_file_type ingestion_df in
  match ingestion_type with
  | MonthlyRows =>
      let columns_to_check := filter (λ col, col ≠ "Quantity") (columns ingestion_df) in
      let duplicate_columns := filter (λ col, col ≠ "Quantity") (columns ingestion_df) in
      check_nulls_and_duplicates ingestion_df columns_to_check duplicate_columns
        (duplicate_message MonthlyRows)
  | MonthlyColumns =>
      let month_columns :=
        filter (λ col, is_month_column col = true) (columns ingestion_df) in
      let columns_to_check := filter (λ col, col ∉ month_columns) (columns ingestion_df) in
      let duplicate_columns := filter (λ col, col ∉ month_columns) (columns ingestion_df) in
      check_nulls_and_duplicates ingestion_df columns_to_check duplicate_columns
        (duplicate_message MonthlyColumns)
  | UnknownType =>
      check_nulls_and_duplicates ingestion_df (columns ingestion_df) (columns ingestion_df)
        (duplicate_message UnknownType)
  end.

Definition find_data_discrepancies (raw_data_df ingestion_df : Table) : list string := [].

(* ===================================================================== *)
(** ** map_ghg_emissions_data, compare_ghg_emissions_data *)
(* ===================================================================== *)

Inductive match_status : Type :=
  | Match             (* 'Match' *)
  | Mismatch          (* 'Mismatch' *)
  | NoMatchInRawData. (* 'No Match in Raw Data' *)

Record MatchRecord : Type := mkMatchRecord {
  facility_name : cell;
  resource_name : cell;
  month : cell;
  year : cell;
  raw_quantity : option cell;     (* [None] is Python's [None] *)
  ingestion_quantity : cell;
  difference : option cell;       (* [None] is Python's [None] *)
  status : match_status
}.

Record RowsMapping : Type := mkRowsMapping {
  total_ingestion_rows : nat;
  matched_rows : nat;
  unmatched_rows : nat;
  quantity_matches : nat;
  quantity_mismatches : nat;
  comparison_results : list MatchRecord
}.

Inductive error_dict : Type :=
  | UnknownIngestionFileType (ty : ingestion_type)  (* 'Unknown ingestion file type: ...' *)
  | ErrorMapping (e : exn).                         (* 'Error mapping GHG emissions data: ...' *)

Inductive mapping_result : Type :=
  | MappingRows (m : RowsMapping)
  | MappingColumnsPending   (* 'Monthly Data in Columns mapping ready for implementation' *)
  | MappingError (e : error_dict).

(** [raw_quantity - ingestion_quantity]: integer subtraction on numbers,
    [NaN] as soon as one side is missing and the other is not a string,
    [TypeError] when a string is involved.  The subtraction is exact,
    as numpy's is on [int64] and on [float64] alike for integers of
    magnitude at most 2^52; [int64] wrap-around and [float64] rounding
    past that bound are not modelled, and the properties that state the
    value of a difference assume [numbers_exact]. *)
Definition py_sub (a b : cell) : exc cell :=
  match a, b with
  | CNum x, CNum y => Ok (CNum (x - y))
  | CStr _, _ | _, CStr _ => Raise TypeError
  | _, _ => Ok CMissing
  end.

(** [series == scalar] and [mask & mask]. *)
Definition series_eq (s : list cell) (v : cell) : list bool := map (λ c, py_eq c v) s.
Definition mask_and (m1 m2 : list bool) : list bool := zip_with andb m1 m2.

(** The selection [raw_data_df[(...) & (...) & (...) & (...)]]. *)
Definition raw_match (raw_data_df : Table) (facility_name resource_name month year : cell)
  : exc (list row) :=
  c1 ← column raw_data_df "Facility Name";
  c2 ← column raw_data_df "Resource Name";
  c3 ← column raw_data_df "Month";
  c4 ← column raw_data_df "Year";
  mret (select_rows
          (mask_and (mask_and (mask_and (series_eq c1 facility_name)
                                        (series_eq c2 resource_name))
                              (series_eq c3 month))
                    (series_eq c4 year))
          (rows raw_data_df)).

(** The local variables the loop updates. *)
Record match_state : Type := mkMatchState {
  st_results : list MatchRecord;
  st_matched_rows : nat;
  st_unmatched_ingestion_rows : nat;
  st_quantity_matches : nat;
  st_quantity_mismatches : nat
}.

Definition match_state_init : match_state := mkMatchState [] 0 0 0 0.

(** One iteration of [for idx, ingestion_row in ingestion_df.iterrows()]. *)
Definition match_row (raw_data_df : Table) (ingestion_cols : list string)
    (ingestion_facility_col : string) (st : match_state) (ingestion_row : row)
  : exc match_state :=
  facility_name ← row_get ingestion_cols ingestion_row ingestion_facility_col;
  resource_name ← row_get ingestion_cols ingestion_row "Resource Name";
  month ← row_get ingestion_cols ingestion_row "Month";
  year ← row_get ingestion_cols ingestion_row "Year";
  ingestion_quantity ← row_get ingestion_cols ingestion_row "Quantity";
  found ← raw_match raw_data_df facility_name resource_name month year;
  match found with
  | first :: _ =>
      raw_quantity ← row_get (columns raw_data_df) first "Quantity";
      let is_match := py_eq raw_quantity ingestion_quantity in
      difference ← py_sub raw_quantity ingestion_quantity;
      mret {|
        st_results := st_results st ++
          [mkMatchRecord facility_name resource_name month year
             (Some raw_quantity) ingestion_quantity (Some difference)
             (if is_match then Match else Mismatch)];
        st_matched_rows := S (st_matched_rows st);
        st_unmatched_ingestion_rows := st_unmatched_ingestion_rows st;
        st_quantity_matches :=
          if is_match then S (st_quantity_matches st) else st_quantity_matches st;
        st_quantity_mismatches :=
          if is_match then st_quantity_mismatches st else S (st_quantity_mismatches st)
      |}
  | [] =>
      mret {|
        st_results := st_results st ++
          [mkMatchRecord facility_name resource_name month year
             None ingestion_quantity None NoMatchInRawData];
        st_matched_rows := st_matched_rows st;
        st_unmatched_ingestion_rows := S (st_unmatched_ingestion_rows st);
        st_quantity_matches := st_quantity_matches st;
        st_quantity_mismatches := st_quantity_mismatches st
      |}
  end.

Fixpoint match_loop (raw_data_df : Table) (ingestion_cols : list string)
    (ingestion_facility_col : string) (st : match_state) (ingestion_rows : list row)
  : exc match_state :=
  match ingestion_rows with
  | [] => Ok st
  | ingestion_row :: rest =>
      st' ← match_row raw_data_df ingestion_cols ingestion_facility_col st ingestion_row;
      match_loop raw_data_df ingestion_cols ingestion_facility_col st' rest
  end.

Definition map_ghg_emissions_data (raw_data_df ingestion_df : Table)
    (ingestion_type : ingestion_type) : mapping_result :=
  match ingestion_type with
  | MonthlyRows =>
      let ingestion_facility_col :=
        if has_column ingestion_df "Facility Name" then "Facility Name" else "Facility" in
      match match_loop raw_data_df (columns ingestion_df) ingestion_facility_col
              match_state_init (rows ingestion_df) with
      | Ok st =>
          MappingRows {|
            total_ingestion_rows := length (rows ingestion_df);
            matched_rows := st_matched_rows st;
            unmatched_rows := st_unmatched_ingestion_rows st;
            quantity_matches := st_quantity_matches st;
            quantity_mismatches := st_quantity_mismatches st;
            comparison_results := st_results st
          |}
      | Raise e => MappingError (ErrorMapping e)
      end
  | MonthlyColumns => MappingColumnsPending
  | UnknownType => MappingError (UnknownIngestionFileType ingestion_type)
  end.

(** The dictionary [compare_ghg_emissions_data] returns: the error
    dictionary of the mapping, or the mapping under the key ['mapping']
    with [comparison_status = 'Completed']. *)
Inductive ghg_comparison : Type :=
  | GhgError (e : error_dict)
  | GhgCompleted (ingestion_type : ingestion_type) (mapping : mapping_result).

(** [map_ghg_emissions_data] catches every exception itself, so the
    [except] clause of this function is never entered. *)
Definition compare_ghg_emissions_data (raw_data_df ingestion_df : Table)
    (ingestion_type : ingestion_type) : ghg_comparison :=
  let mapping_result := map_ghg_emissions_data raw_data_df ingestion_df ingestion_type in
  match mapping_result with
  | MappingError e => GhgError e
  | _ => GhgCompleted ingestion_type mapping_result
  end.

(* ===================================================================== *)
(** ** compare_dataframes, generate_comparison_report *)
(* ===================================================================== *)

Record Comparison : Type := mkComparison {
  raw_data_rows : nat;
  ingestion_rows : nat;
  raw_data_cols : nat;
  ingestion_cols : nat;
  common_columns : gset string;
  raw_data_only_columns : gset string;
  ingestion_only_columns : gset string;
  row_difference : Z;
  rows_missing_in_ingestion : nat;   (* key 'missing_in_ingestion' of [basic_info] *)
  facility_comparison : facility_result;
  result_resource_type : resource_type;          (* key 'resource_type' *)
  ingestion_file_type : ingestion_type;
  resource_comparison : option ghg_comparison    (* the key is absent when [None] *)
}.

Definition compare_dataframes (raw_data_df ingestion_df : Table) : Comparison :=
  let raw_cols : gset string := list_to_set (columns raw_data_df) in
  let ing_cols : gset string := list_to_set (columns ingestion_df) in
  let facility_comparison := compare_facility_names raw_data_df ingestion_df in
  let resource_type := identify_resource_type ingestion_df in
  let ingestion_file_type := identify_ingestion_file_type ingestion_df in
  let resource_comparison :=
    if decide (resource_type = GHGEmissions)
    then Some (compare_ghg_emissions_data raw_data_df ingestion_df ingestion_file_type)
    else None in
  {| raw_data_rows := length (rows raw_data_df);
     ingestion_rows := length (rows ingestion_df);
     raw_data_cols := length (columns raw_data_df);
     ingestion_cols := length (columns ingestion_df);
     common_columns := raw_cols ∩ ing_cols;
     raw_data_only_columns := raw_cols ∖ ing_cols;
     ingestion_only_columns := ing_cols ∖ raw_cols;
     row_difference := Z.of_nat (length (rows raw_data_df)) - Z.of_nat (length (rows ingestion_df));
     rows_missing_in_ingestion :=
       if length (rows ingestion_df) <? length (rows raw_data_df)
       then length (rows raw_data_df) - length (rows ingestion_df) else 0;
     facility_comparison := facility_comparison;
     result_resource_type := resource_type;
     ingestion_file_type := ingestion_file_type;
     (* [if resource_comparison:] holds for every dictionary the
        comparison returns, none of them being empty *)
     resource_comparison := resource_comparison |}.

Record Report : Type := mkReport {
  timestamp : string;
  basic_comparison : Comparison;
  data_quality_issues : QualityReport;
  discrepancies : list string
}.

(** [now] is what [datetime.now().strftime("%Y-%m-%d %H:%M:%S")] reads
    at the call. *)
Definition generate_comparison_report (now : string) (raw_data_df ingestion_df : Table)
  : Report :=
  {| timestamp := now;
     basic_comparison := compare_dataframes raw_data_df ingestion_df;
     data_quality_issues := analyze_data_quality raw_data_df ingestion_df;
     discrepancies := find_data_discrepancies raw_data_df ingestion_df |}.

(* ===================================================================== *)
(** ** Notions the properties are stated with *)
(* ===================================================================== *)

(** An ingestion key and a raw row agree on (Facility Name, Resource
    Name, Month, Year), cell by cell under [==]: the four cells are equal
    and none is missing. *)
Definition key_matches (raw_cols : list string) (fn rn mo yr : cell) (raw_row : row) : bool :=
  match row_get raw_cols raw_row "Facility Name", row_get raw_cols raw_row "Resource Name",
        row_get raw_cols raw_row "Month", row_get raw_cols raw_row "Year" with
  | Ok a, Ok b, Ok c, Ok d => py_eq a fn && py_eq b rn && py_eq c mo && py_eq d yr
  | _, _, _, _ => false
  end.

(** The facility column [map_ghg_emissions_data] reads in the ingestion
    table. *)
Definition ingestion_facility_column (ingestion_df : Table) : string :=
  if has_column ingestion_df "Facility Name" then "Facility Name" else "Facility".

(** The value of a column of the table's own in a row. *)
Definition field (cols : list string) (r : row) (name : string) : cell :=
  match row_get cols r name with Ok c => c | Raise _ => CMissing end.

Definition is_text (c : cell) : bool :=
  match c with CStr _ => true | _ => false end.

(** Every cell of the Quantity column is a number or missing. *)
Definition quantity_numeric (t : Table) : bool :=
  forallb (λ r, negb (is_text (field (columns t) r "Quantity"))) (rows t).

(** The raw table has the four key columns and the Quantity column. *)
Definition raw_has_key_columns (raw_data_df : Table) : bool :=
  forallb (has_column raw_data_df)
    ["Facility Name"; "Resource Name"; "Month"; "Year"; "Quantity"].

(** What the specification asks of the record of one ingestion row. *)
Definition record_for (raw_data_df ingestion_df : Table) (ingestion_row : row)
    (rec : MatchRecord) : Prop :=
  let get := field (columns ingestion_df) ingestion_row in
  let fn := get (ingestion_facility_column ingestion_df) in
  let matches := key_matches (columns raw_data_df) fn (get "Resource Name") (get "Month")
                   (get "Year") in
  facility_name rec = fn ∧ resource_name rec = get "Resource Name" ∧
  month rec = get "Month" ∧ year rec = get "Year" ∧
  ingestion_quantity rec = get "Quantity" ∧
  ((∀ raw_row, raw_row ∈ rows raw_data_df → matches raw_row = false) →
     status rec = NoMatchInRawData ∧ raw_quantity rec = None ∧ difference rec = None) ∧
  (∀ before first after,
     rows raw_data_df = (before ++ first :: after)%list →
     (∀ raw_row, raw_row ∈ before → matches raw_row = false) →
     matches first = true →
     let rq := field (columns raw_data_df) first "Quantity" in
     raw_quantity rec = Some rq ∧
     (∃ d, difference rec = Some d ∧ py_sub rq (get "Quantity") = Ok d) ∧
     (∀ x y, rq = CNum x → get "Quantity" = CNum y → difference rec = Some (CNum (x - y))) ∧
     (status rec = Match ↔ rq = get "Quantity" ∧ rq ≠ CMissing) ∧
     (status rec = Mismatch ↔ ¬ (rq = get "Quantity" ∧ rq ≠ CMissing))).

(** How many times a projection occurs among the projections of the
    rows. *)
Definition occurrences (k : list cell) (keys : list (list cell)) : nat :=
  length (filter (λ k', k' = k) keys).

(** The rows of a table whose projection on [subset] occurs at least
    twice: every member of every duplicate group, in table order. *)
Definition rows_in_duplicate_groups (t : Table) (subset : list string) : list row :=
  let keys := map (project (columns t) subset) (rows t) in
  filter (λ r, 2 ≤ occurrences (project (columns t) subset r) keys) (rows t).

(** The number of rows that repeat the projection of an earlier row: the
    rows beyond the first of each group, that is, the number of rows
    less the number of distinct projections. *)
Definition repeated_rows (t : Table) (subset : list string) : nat :=
  let keys := map (project (columns t) subset) (rows t) in
  length keys - size (list_to_set keys : gset (list cell)).

(** The columns the duplicate check looks at, by schema. *)
Definition identifying_columns (ty : ingestion_type) (cols : list string) : list string :=
  match ty with
  | MonthlyRows => filter (λ col, col ≠ "Quantity") cols
  | MonthlyColumns => filter (λ col, is_month_column col = false) cols
  | UnknownType => cols
  end.

(** The set [set(df[name].dropna())] for a column the table has. *)
Definition facilities (t : Table) (name : string) : gset cell :=
  list_to_set (dropna (series t name)).



(** The report carries a list of match records with its counters. *)
Definition carries_match_records (c : Comparison) : Prop :=
  ∃ ty m, resource_comparison c = Some (GhgCompleted ty (MappingRows m)).

(** [compare_ghg_emissions_data] was called: the report has the key
    ['resource_comparison']. *)
Definition matcher_invoked (c : Comparison) : Prop :=
  is_Some (resource_comparison c).

(* ===================================================================== *)
(** ** Sample tables *)
(* ===================================================================== *)

Definition monthly_rows_columns : list string :=
  ["Facility"; "Scope"; "Activity Type"; "Month"; "Year"; "Quantity"; "Unit"; "Resource Name"].

Definition diesel_row (facility : string) (quantity : Z) : row :=
  [CStr facility; CStr "Scope 1"; CStr "Fuel"; CStr "Apr"; CNum 2024; CNum quantity;
   CStr "L"; CStr "Diesel"].

(** One ingestion row, Plant A / Diesel / Apr / 2024 with quantity 10. *)
Definition ingestion_one : Table :=
  mkTable monthly_rows_columns [diesel_row "Plant A" 10].

(** Three ingestion rows: one that matches with the same quantity, one
    that matches with another quantity, one without a raw row. *)
Definition ingestion_three : Table :=
  mkTable monthly_rows_columns
    [diesel_row "Plant A" 10; diesel_row "Plant B" 7; diesel_row "Plant C" 3].

(** Two ingestion rows that differ in nothing, quantity 5. *)
Definition ingestion_twice : Table :=
  mkTable monthly_rows_columns [diesel_row "Plant A" 5; diesel_row "Plant A" 5].

Definition raw_columns : list string :=
  ["Facility Name"; "Resource Name"; "Month"; "Year"; "Quantity"].

(** Plant A appears twice, so the first of the two rows is the one read. *)
Definition raw_sample : Table :=
  mkTable raw_columns
    [[CStr "Plant A"; CStr "Diesel"; CStr "Apr"; CNum 2024; CNum 10];
     [CStr "Plant A"; CStr "Diesel"; CStr "Apr"; CNum 2024; CNum 99];
     [CStr "Plant B"; CStr "Diesel"; CStr "Apr"; CNum 2024; CNum 9]].

(** A raw table without any column. *)
Definition raw_empty : Table := mkTable [] [].

Definition monthly_columns_columns : list string :=
  ["Facility"; "Scope"; "Activity Type"; "Resource"; "Apr-24"; "May-24"; "Jun-24"; "Units"].

Definition ingestion_by_columns : Table :=
  mkTable monthly_columns_columns
    [[CStr "Plant A"; CStr "Scope 1"; CStr "Fuel"; CStr "Diesel"; CNum 1; CNum 2; CNum 3;
      CStr "L"]].

(** Scope is present, the rest of a recognised layout is not. *)
Definition ingestion_scope_only : Table :=
  mkTable ["Facility"; "Scope"] [[CStr "Plant A"; CStr "Scope 1"]].


(* ===================================================================== *)
(** ** identify_file_types ([utility_functions.py]) *)
(* ===================================================================== *)

(** What the function reads of an uploaded file. *)
Record UploadedFile : Type := mkUploadedFile {
  file_name : string;   (* [file.name] *)
  file_size : nat       (* [file.size] *)
}.

(** One entry of the dictionary the function returns. *)
Record FileRole : Type := mkFileRole {
  role_file : UploadedFile;   (* key 'file' *)
  role_df : Table;            (* key 'df' *)
  role_name : string;         (* key 'name' *)
  role_type : string          (* key 'type' *)
}.

Record FileTypes : Type := mkFileTypes {
  raw_data : FileRole;
  ingestion : FileRole
}.

Definition identify_file_types (file1 file2 : UploadedFile) (df1 df2 : Table) : FileTypes :=
  let file1_size := file_size file1 in
  let file2_size := file_size file2 in
  if file2_size <? file1_size then
    {| raw_data := mkFileRole file1 df1 (file_name file1) "Raw Data File";
       ingestion := mkFileRole file2 df2 (file_name file2) "Ingestion File" |}
  else
    {| raw_data := mkFileRole file2 df2 (file_name file2) "Raw Data File";
       ingestion := mkFileRole file1 df1 (file_name file1) "Ingestion File" |}.

(* ===================================================================== *)
(** ** The choice of the raw data sheet in [main] ([main.py]) *)
(* ===================================================================== *)

(** The string a resource type is in Python. *)
Definition resource_type_label (ty : resource_type) : string :=
  match ty with
  | GHGEmissions => "GHG Emissions"
  | UnknownResource => "Unknown"
  end.

Definition resource_sheet_mapping : list (string * string) :=
  [("GHG Emissions", "GHG Emissions"); ("Water", "Water"); ("Waste", "Waste");
   ("Activity Metrics", "Activity Metrics")].

(** [d[key]] and [key in d] on a dictionary literal. *)
Fixpoint dict_get (d : list (string * string)) (key : string) : option string :=
  match d with
  | [] => None
  | (k, v) :: d' => if bool_decide (k = key) then Some v else dict_get d' key
  end.

(** How the statements between [resource_type = identify_resource_type(...)]
    and the reading of the raw sheet end: with a sheet, after a warning or
    not, or with one of the two [st.error] messages and [return]. *)
Inductive sheet_choice : Type :=
  | SheetChosen (raw_data_sheet : string) (warned : bool)
  | SheetNotFound (expected_sheet : string)   (* '... sheet not found in raw data file' *)
  | NoFirstSheet.                             (* 'Could not identify first sheet ...' *)

Definition choose_raw_data_sheet (ingestion_df : Table) (raw_sheets : list string)
  : sheet_choice :=
  let resource_type := resource_type_label (identify_resource_type ingestion_df) in
  match dict_get resource_sheet_mapping resource_type with
  | Some expected_sheet =>
      if bool_decide (expected_sheet ∈ raw_sheets) then SheetChosen expected_sheet false
      else SheetNotFound expected_sheet
  | None =>
      (* [raw_sheets[0] if raw_sheets else None], then [if not raw_data_sheet] *)
      match raw_sheets with
      | [] => NoFirstSheet
      | first :: _ =>
          if bool_decide (first = "") then NoFirstSheet else SheetChosen first true
      end
  end.

(* ===================================================================== *)
(** ** Further notions *)
(* ===================================================================== *)

#[global] Instance match_status_eq_dec : EqDecision match_status.
Proof. solve_decision. Defined.

(** How many records have a given status. *)
Definition count_status (s : match_status) (recs : list MatchRecord) : nat :=
  length (filter (λ rec, status rec = s) recs).

(** The four key columns [raw_match] reads in the raw table, in the
    order it reads them. *)
Definition raw_key_columns : list string :=
  ["Facility Name"; "Resource Name"; "Month"; "Year"].

(** The first key column the raw table does not have. *)
Definition first_missing_key (raw_data_df : Table) : option string :=
  List.find (λ k, negb (has_column raw_data_df k)) raw_key_columns.



(** The table with the Quantity cell of every row overwritten by a value
    computed from the row. *)
Definition overwrite_quantity (g : row → cell) (t : Table) : Table :=
  match index_of "Quantity" (columns t) with
  | Some i => mkTable (columns t) (map (λ r, <[i := g r]> r) (rows t))
  | None => t
  end.

(** Sample files and tables for the properties below. *)
Definition file_large : UploadedFile := mkUploadedFile "raw.xlsx" 2048.
Definition file_small : UploadedFile := mkUploadedFile "ingestion.xlsx" 512.

Definition monthly_rows_and_more : Table :=
  mkTable ("Apr-24" :: "Units" :: "Resource" :: monthly_rows_columns) [].




(* ===================================================================== *)
(** ** identify_ingestion_file_type on headers of any kind *)
(* ===================================================================== *)

(** A column header as [read_excel] gives it: text, or a number or a
    date, of which the model keeps what [str] shows. *)
Inductive header : Type :=
  | Text (name : string)
  | NotText (shown : string).

#[global] Instance header_eq_dec : EqDecision header.
Proof. solve_decision. Defined.

Definition header_is_text (h : header) : bool :=
  match h with Text _ => true | NotText _ => false end.

(** What the function returns: one of its three labels, or the string
    'Error identifying ingestion file type: ...' of its [except]
    clause. *)
Inductive classification : Type :=
  | Classified (ty : ingestion_type)
  | ClassificationError (e : exn).

(** [any(month in col for month in [...])]: on a header that is not text
    the first [month in col] raises [TypeError]. *)
Definition header_month (col : header) : exc bool :=
  match col with
  | Text name => Ok (is_month_column name)
  | NotText _ => Raise TypeError
  end.

(** [[col for col in columns if any(month in col for month in [...])]] *)
Fixpoint month_headers (columns : list header) : exc (list header) :=
  match columns with
  | [] => Ok []
  | col :: rest =>
      is_month ← header_month col;
      month_columns ← month_headers rest;
      Ok (if is_month : bool then col :: month_columns else month_columns)
  end.

Definition identify_ingestion_file_type_headers (columns : list header) : classification :=
  let has_facility :=
    bool_decide (Text "Facility Name" ∈ columns) || bool_decide (Text "Facility" ∈ columns) in
  let body : exc ingestion_type :=
    if has_facility && forallb (λ col, bool_decide (Text col ∈ columns)) type1_indicators
    then Ok MonthlyRows
    else if has_facility && forallb (λ col, bool_decide (Text col ∈ columns)) type2_indicators
    then
      month_columns ← month_headers columns;
      Ok (if 3 <=? length month_columns then MonthlyColumns else UnknownType)
    else Ok UnknownType in
  match body with
  | Ok ty => Classified ty
  | Raise e => ClassificationError e
  end.

(** The headers of a [Table]. *)
Definition text_headers (t : Table) : list header := map Text (columns t).


(** A text header that carries a month token. *)
Definition header_has_month (col : header) : bool :=
  match col with
  | Text name => is_month_column name
  | NotText _ => false
  end.

(** The number of text headers that carry a month token. *)
Definition month_header_count (columns : list header) : nat :=
  length (filter (λ col, header_has_month col = true) columns).


(** One of the two layouts was recognised. *)
Definition recognised (c : classification) : bool :=
  match c with
  | Classified MonthlyRows | Classified MonthlyColumns => true
  | _ => false
  end.

(* ===================================================================== *)
(** ** Notions for the conditions of record matching *)
(* ===================================================================== *)






Definition header_2024 : header := NotText "2024".


(* ===================================================================== *)
(** * Properties *)
(* ===================================================================== *)

(** ** Column lookup *)

Lemma index_of_is_Some (name : string) (cols : list string) :
  name ∈ cols → is_Some (index_of name cols).
Proof.
  induction cols as [|c cols IH]; intros Hin.
  - by apply elem_of_nil in Hin.
  - simpl. case_bool_decide as Hc; [by eexists|].
    apply elem_of_cons in Hin as [->|Hin]; [done|].
    destruct (IH Hin) as [i ->]. by eexists.
Qed.

Lemma index_of_None (name : string) (cols : list string) :
  name ∉ cols → index_of name cols = None.
Proof.
  induction cols as [|c cols IH]; intros Hnin; [done|].
  simpl. apply not_elem_of_cons in Hnin as [Hne Hnin].
  rewrite bool_decide_false by congruence. by rewrite IH.
Qed.

Lemma has_column_true (t : Table) (name : string) :
  has_column t name = true ↔ name ∈ columns t.
Proof. unfold has_column. by rewrite bool_decide_eq_true. Qed.

Lemma has_column_false (t : Table) (name : string) :
  has_column t name = false ↔ name ∉ columns t.
Proof. unfold has_column. by rewrite bool_decide_eq_false. Qed.

Lemma column_series (t : Table) (name : string) :
  has_column t name = true → column t name = Ok (series t name).
Proof.
  intros H%has_column_true%index_of_is_Some. destruct H as [i Hi].
  unfold series, column. by rewrite Hi.
Qed.

Lemma facility_set_facilities (t : Table) (name : string) :
  has_column t name = true → facility_set t name = Ok (facilities t name).
Proof.
  intros H. unfold facility_set, facilities. by rewrite (column_series _ _ H).
Qed.

(** ** compare_facility_names *)

Lemma compare_facility_names_ok (raw ing : Table) :
  has_column raw "Facility Name" = true →
  (has_column ing "Facility Name" || has_column ing "Facility") = true →
  let R := facilities raw "Facility Name" in
  let I := facilities ing (ingestion_facility_column ing) in
  compare_facility_names raw ing =
    FacilityOk (mkFacilityComparison (size R) (size I) (size (R ∩ I)) (I ∖ R) (R ∖ I)
                  (size (I ∖ R)) (size (R ∖ I))).
Proof.
  intros Hraw Hing R I. subst R I.
  unfold compare_facility_names, ingestion_facility_column. rewrite Hraw. simpl.
  destruct (has_column ing "Facility Name") eqn:H1.
  - by rewrite !facility_set_facilities.
  - simpl in Hing. rewrite Hing. by rewrite !facility_set_facilities.
Qed.

(** C9. [compare_facility_names] answers one of its two schema errors
    exactly when the raw table has no [Facility Name] column or the
    ingestion table has neither [Facility Name] nor [Facility]; in every
    other case it answers a comparison result, and no exception reaches
    the [except] clause. *)
Theorem compare_facility_names_error_iff (raw ing : Table) :
  ((∃ msg, compare_facility_names raw ing = FacilityError msg) ↔
     "Facility Name" ∉ columns raw ∨
     (("Facility Name" ∉ columns ing) ∧ ("Facility" ∉ columns ing))) ∧
  ((∃ r, compare_facility_names raw ing = FacilityOk r) ↔
     "Facility Name" ∈ columns raw ∧
     ("Facility Name" ∈ columns ing ∨ "Facility" ∈ columns ing)) ∧
  (∀ e, compare_facility_names raw ing ≠ FacilityException e).
Proof.
  destruct (has_column raw "Facility Name") eqn:Hraw.
  - destruct (has_column ing "Facility Name" || has_column ing "Facility") eqn:Hing.
    + rewrite (compare_facility_names_ok raw ing Hraw Hing).
      apply has_column_true in Hraw.
      apply orb_true_iff in Hing. rewrite !has_column_true in Hing.
      split_and!; [split|split|done].
      * by intros [? ?].
      * intros [?|[? ?]]; [done|]. by destruct Hing.
      * done.
      * intros _. by eexists.
    + apply orb_false_iff in Hing as [H1 H2].
      unfold compare_facility_names. rewrite Hraw, H1, H2. simpl.
      apply has_column_false in H1, H2.
      split_and!; [split|split|done].
      * intros _. by right.
      * intros _. by eexists.
      * by intros [? ?].
      * intros [_ [?|?]]; done.
  - unfold compare_facility_names. rewrite Hraw. simpl.
    apply has_column_false in Hraw.
    split_and!; [split|split|done].
    + intros _. by left.
    + intros _. by eexists.
    + by intros [? ?].
    + by intros [? _].
Qed.

(** C7. When the raw table has a [Facility Name] column and the
    ingestion table a facility column, the result counts the two facility
    sets, common + missing-in-ingestion is the size of the raw set,
    common + missing-in-raw is the size of the ingestion set, and the two
    difference sets are disjoint from each other and from the common
    set. *)
Theorem compare_facility_names_counts (raw ing : Table) :
  has_column raw "Facility Name" = true →
  (has_column ing "Facility Name" || has_column ing "Facility") = true →
  let R := facilities raw "Facility Name" in
  let I := facilities ing (ingestion_facility_column ing) in
  ∃ r, compare_facility_names raw ing = FacilityOk r ∧
    raw_facilities_count r = size R ∧
    ingestion_facilities_count r = size I ∧
    common_facilities_count r = size (R ∩ I) ∧
    missing_in_raw_count r = size (missing_in_raw r) ∧
    missing_in_ingestion_count r = size (missing_in_ingestion r) ∧
    common_facilities_count r + missing_in_ingestion_count r = size R ∧
    common_facilities_count r + missing_in_raw_count r = size I ∧
    missing_in_raw r ## missing_in_ingestion r ∧
    missing_in_raw r ## R ∩ I ∧
    missing_in_ingestion r ## R ∩ I.
Proof.
  intros Hraw Hing R I.
  eexists. split; [apply (compare_facility_names_ok raw ing Hraw Hing)|]. simpl.
  fold R I. split_and!; try done.
  - rewrite <- size_union by (intros x; rewrite elem_of_intersection, elem_of_difference; tauto).
    f_equal. apply set_eq. intros x.
    rewrite elem_of_union, elem_of_intersection, elem_of_difference.
    destruct (decide (x ∈ I)); tauto.
  - rewrite <- size_union by (intros x; rewrite elem_of_intersection, elem_of_difference; tauto).
    f_equal. apply set_eq. intros x.
    rewrite elem_of_union, elem_of_intersection, elem_of_difference.
    destruct (decide (x ∈ R)); tauto.
  - intros x. rewrite !elem_of_difference. tauto.
  - intros x. rewrite elem_of_intersection, elem_of_difference. tauto.
  - intros x. rewrite elem_of_intersection, elem_of_difference. tauto.
Qed.

(** The counts of C7 on the sample tables: Plant A and Plant B in raw,
    Plant A, Plant B and Plant C in the ingestion table. *)
Lemma compare_facility_names_counts_witness :
  has_column raw_sample "Facility Name" = true ∧
  (has_column ingestion_three "Facility Name" || has_column ingestion_three "Facility") = true ∧
  ∃ r, compare_facility_names raw_sample ingestion_three = FacilityOk r ∧
       common_facilities_count r + missing_in_ingestion_count r = 2 ∧
       common_facilities_count r + missing_in_raw_count r = 3.
Proof.
  split; [reflexivity|]. split; [reflexivity|].
  destruct (compare_facility_names_counts raw_sample ingestion_three eq_refl eq_refl)
    as (r & Hr & _ & _ & _ & _ & _ & H1 & H2 & _).
  exists r. split; [exact Hr|]. split.
  - rewrite H1. vm_compute. reflexivity.
  - rewrite H2. vm_compute. reflexivity.
Defined.

(** ** analyze_data_quality and the raw table *)

(** C10. The quality analysis does not read the raw table: with the same
    ingestion table, any two raw tables give the same issues and the same
    duplicate rows. *)
Theorem analyze_data_quality_ignores_raw (raw1 raw2 ingestion_df : Table) :
  analyze_data_quality raw1 ingestion_df = analyze_data_quality raw2 ingestion_df ∧
  quality_issues (analyze_data_quality raw1 ingestion_df) =
    quality_issues (analyze_data_quality raw2 ingestion_df) ∧
  duplicate_rows (analyze_data_quality raw1 ingestion_df) =
    duplicate_rows (analyze_data_quality raw2 ingestion_df).
Proof. by split_and!. Qed.

(** ** generate_comparison_report *)

(** The report carries the reading of the clock, so two calls on the
    same tables one second apart give reports that differ in their
    [timestamp]. *)
Lemma generate_comparison_report_not_repeatable :
  timestamp (generate_comparison_report "2024-04-01 09:00:00" raw_sample ingestion_one) =
    "2024-04-01 09:00:00" ∧
  timestamp (generate_comparison_report "2024-04-01 09:00:01" raw_sample ingestion_one) =
    "2024-04-01 09:00:01" ∧
  generate_comparison_report "2024-04-01 09:00:00" raw_sample ingestion_one ≠
  generate_comparison_report "2024-04-01 09:00:01" raw_sample ingestion_one.
Proof.
  split_and!; [reflexivity|reflexivity|].
  intros H. apply (f_equal timestamp) in H. discriminate H.
Qed.

(** ** Masks and duplicates *)

Lemma select_rows_map (f : row → bool) (rs : list row) :
  select_rows (map f rs) rs = filter (λ r, f r = true) rs.
Proof.
  induction rs as [|r rs IH]; [done|]. simpl.
  destruct (f r) eqn:Hf.
  - rewrite filter_cons_True by done. by rewrite IH.
  - rewrite filter_cons_False by (by rewrite Hf). done.
Qed.

Lemma filter_ext_elem {A} (P Q : A → Prop) `{!∀ x, Decision (P x)} `{!∀ x, Decision (Q x)}
    (l : list A) :
  (∀ x, x ∈ l → (P x ↔ Q x)) → filter P l = filter Q l.
Proof.
  induction l as [|a l IH]; intros Hext; [done|].
  assert (Hl : filter P l = filter Q l).
  { apply IH. intros x Hx. apply Hext. by right. }
  destruct (decide (P a)) as [HP|HP].
  - rewrite !filter_cons_True; [by rewrite Hl| |done]. apply Hext; [by left|done].
  - rewrite !filter_cons_False; [done| |done]. intros HQ. apply HP, Hext; [by left|done].
Qed.

Lemma filter_is_nil {A} (P : A → Prop) `{!∀ x, Decision (P x)} (l : list A) :
  filter P l = [] ↔ ∀ x, x ∈ l → ¬ P x.
Proof.
  induction l as [|a l IH].
  - split; [|done]. intros _ x Hx. by apply elem_of_nil in Hx.
  - destruct (decide (P a)) as [HP|HP].
    + rewrite filter_cons_True by done. split; [done|].
      intros Hall. destruct (Hall a); [by left|done].
    + rewrite filter_cons_False by done. rewrite IH. split.
      * intros Hall x [->|Hx]%elem_of_cons; [done|by apply Hall].
      * intros Hall x Hx. apply Hall. by right.
Qed.

Lemma elem_of_map {A B} (f : A → B) (l : list A) (y : B) :
  y ∈ map f l ↔ ∃ x, y = f x ∧ x ∈ l.
Proof.
  rewrite list_elem_of_In, in_map_iff. split.
  - intros (x & <- & Hx). exists x. by rewrite list_elem_of_In.
  - intros (x & -> & Hx). exists x. by rewrite <- list_elem_of_In.
Qed.

Lemma count_true_cons (b : bool) (mask : list bool) :
  count_true (b :: mask) = (if b then 1 else 0) + count_true mask.
Proof. unfold count_true. by destruct b. Qed.

Lemma occurrences_cons (k k' : list cell) (keys : list (list cell)) :
  occurrences k (k' :: keys) = (if decide (k' = k) then 1 else 0) + occurrences k keys.
Proof.
  unfold occurrences. destruct (decide (k' = k)).
  - by rewrite filter_cons_True.
  - by rewrite filter_cons_False.
Qed.

Lemma occurrences_app (k : list cell) (l1 l2 : list (list cell)) :
  occurrences k (l1 ++ l2)%list = occurrences k l1 + occurrences k l2.
Proof. unfold occurrences. by rewrite filter_app, length_app. Qed.

Lemma occurrences_pos (k : list cell) (keys : list (list cell)) :
  0 < occurrences k keys ↔ k ∈ keys.
Proof.
  induction keys as [|k' keys IH].
  - unfold occurrences. simpl. rewrite elem_of_nil. lia.
  - rewrite occurrences_cons, elem_of_cons. destruct (decide (k' = k)) as [->|Hne].
    + split; [by left|lia].
    + simpl. rewrite IH. split; [by right|]. intros [->|?]; done.
Qed.

(** The mask of [keep=False] selects the rows whose projection occurs
    twice or more among the projections seen before and those still to
    come. *)
Lemma duplicated_all_select (p : row → list cell) (rs : list row) (seen : list (list cell)) :
  select_rows (duplicated_all seen (map p rs)) rs =
    filter (λ r, 2 ≤ occurrences (p r) (seen ++ map p rs)%list) rs.
Proof.
  revert seen. induction rs as [|r rs IH]; intros seen; [done|].
  simpl.
  assert (Htail : select_rows (duplicated_all (p r :: seen) (map p rs)) rs =
            filter (λ r0, 2 ≤ occurrences (p r0) (seen ++ p r :: map p rs)%list) rs).
  { rewrite IH. apply filter_ext_elem. intros x _. cbv beta.
    rewrite !occurrences_app, !occurrences_cons. lia. }
  assert (Hhead : (bool_decide (p r ∈ seen) || bool_decide (p r ∈ map p rs)) = true ↔
            2 ≤ occurrences (p r) (seen ++ p r :: map p rs)%list).
  { rewrite orb_true_iff, !bool_decide_eq_true, <- !occurrences_pos.
    rewrite occurrences_app, occurrences_cons. rewrite decide_True by done. lia. }
  destruct (bool_decide (p r ∈ seen) || bool_decide (p r ∈ map p rs)) eqn:Hb.
  - rewrite filter_cons_True by (by apply Hhead). by rewrite Htail.
  - rewrite filter_cons_False; [done|]. intros H%Hhead. done.
Qed.

(** The mask of [keep='first'] marks as many rows as there are rows
    beyond the distinct projections not seen before. *)
Lemma duplicated_first_count (keys seen : list (list cell)) :
  count_true (duplicated_first seen keys)
    + size (list_to_set keys ∖ list_to_set seen : gset (list cell)) = length keys.
Proof.
  revert seen. induction keys as [|k keys IH]; intros seen.
  - simpl. rewrite difference_disjoint_L by apply disjoint_empty_l. by rewrite size_empty.
  - simpl. rewrite count_true_cons. specialize (IH (k :: seen)). simpl in IH.
    case_bool_decide as Hk.
    + replace (({[k]} ∪ list_to_set keys) ∖ list_to_set seen : gset (list cell))
        with (list_to_set keys ∖ ({[k]} ∪ list_to_set seen) : gset (list cell)); [lia|].
      apply set_eq. intros x.
      rewrite !elem_of_difference, !elem_of_union, !elem_of_singleton, !elem_of_list_to_set.
      split; [tauto|]. intros [[->|?] ?]; [done|].
      split; [done|]. by intros [->|?].
    + replace (({[k]} ∪ list_to_set keys) ∖ list_to_set seen : gset (list cell))
        with ({[k]} ∪ (list_to_set keys ∖ ({[k]} ∪ list_to_set seen)) : gset (list cell)).
      * rewrite size_union, size_singleton; [lia|].
        intros x. rewrite elem_of_singleton, elem_of_difference, elem_of_union,
          elem_of_singleton. tauto.
      * apply set_eq. intros x.
        rewrite !elem_of_union, !elem_of_difference, !elem_of_union, !elem_of_singleton,
          !elem_of_list_to_set.
        destruct (decide (x = k)) as [->|?]; tauto.
Qed.

Lemma duplicated_first_repeats (keys : list (list cell)) :
  count_true (duplicated_first [] keys) =
    length keys - size (list_to_set keys : gset (list cell)).
Proof.
  pose proof (duplicated_first_count keys []) as H. simpl in H.
  rewrite difference_empty_L in H. lia.
Qed.

(** No row is marked by [keep='first'] exactly when the projections are
    pairwise distinct and none was seen before. *)
Lemma duplicated_first_none (keys seen : list (list cell)) :
  count_true (duplicated_first seen keys) = 0 ↔
    NoDup keys ∧ ∀ k, k ∈ keys → k ∉ seen.
Proof.
  revert seen. induction keys as [|k keys IH]; intros seen.
  - simpl. split; [|done]. intros _. split; [constructor|]. intros k H.
    by apply elem_of_nil in H.
  - simpl. rewrite count_true_cons, NoDup_cons. case_bool_decide as Hk.
    + split; [lia|]. intros [_ H]. exfalso. apply (H k); [by left|done].
    + simpl. rewrite IH. split.
      * intros [Hnd H]. split_and!; [|done|].
        -- intros Hin. apply (H k Hin). by left.
        -- intros k' [->|Hin]%elem_of_cons; [done|].
           intros Hseen. apply (H k' Hin). by right.
      * intros [[Hnin Hnd] H]. split; [done|].
        intros k' Hin [->|Hseen]%elem_of_cons; [done|].
        apply (H k'); [by right|done].
Qed.

Lemma occurrences_NoDup (keys : list (list cell)) :
  NoDup keys ↔ ∀ k, k ∈ keys → occurrences k keys < 2.
Proof.
  induction keys as [|k keys IH].
  - split; [|intros; constructor]. intros _ k H. by apply elem_of_nil in H.
  - rewrite NoDup_cons, IH. split.
    + intros [Hnin H] k' Hin. rewrite occurrences_cons.
      destruct (decide (k = k')) as [<-|Hne].
      * destruct (occurrences k keys) eqn:Ho; [lia|].
        exfalso. apply Hnin, occurrences_pos. lia.
      * simpl. apply H. apply elem_of_cons in Hin as [->|?]; done.
    + intros H. split.
      * intros Hin%occurrences_pos. specialize (H k (list_elem_of_here _ _)).
        rewrite occurrences_cons, decide_True in H by done. lia.
      * intros k' Hin. specialize (H k' (list_elem_of_further _ _ _ Hin)).
        rewrite occurrences_cons in H. lia.
Qed.

Lemma rows_in_duplicate_groups_nil (t : Table) (subset : list string) :
  rows_in_duplicate_groups t subset = [] ↔
    count_true (duplicated t subset KeepFirst) = 0.
Proof.
  unfold rows_in_duplicate_groups, duplicated. simpl.
  rewrite duplicated_first_none, occurrences_NoDup.
  set (p := project (columns t) subset).
  rewrite filter_is_nil. split.
  - intros H. split; [|intros k _; apply not_elem_of_nil].
    intros k (r & -> & Hr)%elem_of_map. specialize (H r Hr). simpl in H. lia.
  - intros [H _] r Hr. assert (p r ∈ map p (rows t)) as Hin.
    { apply elem_of_map. by exists r. }
    specialize (H _ Hin). lia.
Qed.

(** ** analyze_data_quality *)

Lemma month_columns_complement (cols : list string) :
  filter (λ col, col ∉ filter (λ col, is_month_column col = true) cols) cols =
    filter (λ col, is_month_column col = false) cols.
Proof.
  apply filter_ext_elem. intros x Hx. rewrite list_elem_of_filter.
  destruct (is_month_column x); split.
  - intros Hn. exfalso. by apply Hn.
  - done.
  - done.
  - by intros _ [? _].
Qed.

(** Whatever the branch, the analysis is the shared body run on the
    identifying columns of the classified schema, with its wording. *)
Lemma analyze_data_quality_unfold (raw ing : Table) :
  let ty := identify_ingestion_file_type ing in
  let subset := identifying_columns ty (columns ing) in
  analyze_data_quality raw ing =
    check_nulls_and_duplicates ing subset subset (duplicate_message ty).
Proof.
  unfold analyze_data_quality. simpl.
  destruct (identify_ingestion_file_type ing); simpl; [done| |done].
  by rewrite month_columns_complement.
Qed.

(** C3, as stated, fails: on two rows that differ in nothing the issue
    reads "1 duplicate rows", not 2, although both rows are returned as
    duplicate rows. *)
Lemma duplicate_issue_counts_not_every_occurrence :
  identify_ingestion_file_type ingestion_twice = MonthlyRows ∧
  length (rows_in_duplicate_groups ingestion_twice
            (identifying_columns MonthlyRows (columns ingestion_twice))) = 2 ∧
  quality_issues (analyze_data_quality raw_sample ingestion_twice) =
    [duplicate_message MonthlyRows 1] ∧
  duplicate_message MonthlyRows 2 ∉
    quality_issues (analyze_data_quality raw_sample ingestion_twice).
Proof.
  split_and!; [reflexivity|reflexivity|reflexivity|].
  change (quality_issues (analyze_data_quality raw_sample ingestion_twice))
    with [duplicate_message MonthlyRows 1].
  intros H%list_elem_of_singleton. discriminate H.
Qed.

(** C3, amended. The duplicate issue states the number of rows that
    repeat the identifying-column projection of an earlier row, that is
    the number of rows less the number of distinct projections: the first
    row of each group is not counted.  The issue is the last one of the
    list and is worded after the schema; there is none when no row
    repeats an earlier one. *)
Theorem duplicate_issue_counts_repeats (raw ing : Table) :
  let ty := identify_ingestion_file_type ing in
  let subset := identifying_columns ty (columns ing) in
  let keys := map (project (columns ing) subset) (rows ing) in
  let n := repeated_rows ing subset in
  n + size (list_to_set keys : gset (list cell)) = length (rows ing) ∧
  n = count_true (duplicated ing subset KeepFirst) ∧
  quality_issues (analyze_data_quality raw ing) =
    (null_issues ing subset ++ if 0 <? n then [duplicate_message ty n] else [])%list.
Proof.
  intros ty subset keys n.
  assert (Hn : n = count_true (duplicated ing subset KeepFirst)).
  { unfold n, repeated_rows, duplicated. by rewrite duplicated_first_repeats. }
  split_and!; [|done|].
  - rewrite Hn. unfold duplicated.
    pose proof (duplicated_first_count keys []) as H. simpl in H.
    rewrite difference_empty_L in H. fold keys. rewrite H. unfold keys.
    by rewrite length_map.
  - rewrite (analyze_data_quality_unfold raw ing). fold ty subset.
    unfold check_nulls_and_duplicates. rewrite <- Hn.
    destruct (0 <? n); simpl; [done|]. by rewrite app_nil_r.
Qed.

(** C4. The [duplicate_rows] table holds, under the columns of the
    ingestion table and in table order, exactly the rows whose
    identifying-column projection occurs at least twice, the first
    occurrence of each group included; it is [None] when there is no such
    row. *)
Theorem duplicate_rows_every_occurrence (raw ing : Table) :
  let ty := identify_ingestion_file_type ing in
  let dups := rows_in_duplicate_groups ing (identifying_columns ty (columns ing)) in
  duplicate_rows (analyze_data_quality raw ing) =
    if decide (dups = []) then None else Some (mkTable (columns ing) dups).
Proof.
  intros ty dups. rewrite (analyze_data_quality_unfold raw ing). fold ty.
  set (subset := identifying_columns ty (columns ing)) in *.
  unfold check_nulls_and_duplicates.
  pose proof (rows_in_duplicate_groups_nil ing subset) as Hnil. fold dups in Hnil.
  destruct (decide (dups = [])) as [Hd|Hd].
  - apply Hnil in Hd. rewrite Hd. done.
  - destruct (count_true (duplicated ing subset KeepFirst)) as [|c] eqn:Hc.
    + exfalso. by apply Hd, Hnil.
    + simpl. do 2 f_equal. unfold duplicated.
      by rewrite (duplicated_all_select (project (columns ing) subset) (rows ing) []).
Qed.

(** ** Record matching *)

Lemma py_eq_true (a b : cell) : py_eq a b = true ↔ a = b ∧ a ≠ CMissing.
Proof.
  destruct a, b; simpl; rewrite ?bool_decide_eq_true; split;
    try done; try (by intros [? ?]); try (by intros ->); by intros [[= ->] _].
Qed.

Lemma py_sub_numeric (a b : cell) :
  is_text a = false → is_text b = false → ∃ d, py_sub a b = Ok d.
Proof. destruct a, b; simpl; intros; try done; by eexists. Qed.

Lemma row_get_field (cols : list string) (r : row) (name : string) :
  name ∈ cols → row_get cols r name = Ok (field cols r name).
Proof.
  intros [i Hi]%index_of_is_Some. unfold field, row_get. by rewrite Hi.
Qed.

Lemma row_get_cell_at (cols : list string) (r : row) (name : string) (i : nat) :
  index_of name cols = Some i → row_get cols r name = Ok (cell_at r i).
Proof. intros Hi. unfold row_get. by rewrite Hi. Qed.


Lemma mask_and_map (f g : row → bool) (rs : list row) :
  mask_and (map f rs) (map g rs) = map (λ r, f r && g r) rs.
Proof. unfold mask_and. induction rs as [|r rs IH]; simpl; [done|]. by rewrite IH. Qed.

(** The boolean selection of [raw_match] keeps the raw rows that match
    the key, in the order of the raw table. *)
Lemma raw_match_filter (raw : Table) (fn rn mo yr : cell) :
  "Facility Name" ∈ columns raw → "Resource Name" ∈ columns raw →
  "Month" ∈ columns raw → "Year" ∈ columns raw →
  raw_match raw fn rn mo yr =
    Ok (filter (λ r, key_matches (columns raw) fn rn mo yr r = true) (rows raw)).
Proof.
  intros [i1 H1]%index_of_is_Some [i2 H2]%index_of_is_Some
         [i3 H3]%index_of_is_Some [i4 H4]%index_of_is_Some.
  unfold raw_match, column. rewrite H1, H2, H3, H4. simpl.
  unfold mret, exc_ret. f_equal.
  unfold series_eq. rewrite !map_map, !mask_and_map, select_rows_map.
  apply filter_ext_elem. intros r _. unfold key_matches.
  by rewrite (row_get_cell_at _ _ _ _ H1), (row_get_cell_at _ _ _ _ H2),
    (row_get_cell_at _ _ _ _ H3), (row_get_cell_at _ _ _ _ H4).
Qed.

(** The columns a table classified as Monthly Data in Rows has. *)
Lemma monthly_rows_columns_present (ing : Table) :
  identify_ingestion_file_type ing = MonthlyRows →
  ingestion_facility_column ing ∈ columns ing ∧ "Resource Name" ∈ columns ing ∧
  "Month" ∈ columns ing ∧ "Year" ∈ columns ing ∧ "Quantity" ∈ columns ing ∧
  "Scope" ∈ columns ing.
Proof.
  unfold identify_ingestion_file_type, ingestion_facility_column, has_column. cbv zeta.
  destruct ((bool_decide ("Facility Name" ∈ columns ing)
             || bool_decide ("Facility" ∈ columns ing))
            && forallb (λ col, bool_decide (col ∈ columns ing)) type1_indicators) eqn:E.
  - intros _. apply andb_true_iff in E as [Hfac Hall].
    rewrite forallb_forall in Hall.
    assert (Hin : ∀ name, In name type1_indicators → name ∈ columns ing).
    { intros name Hname. eapply bool_decide_eq_true_1, Hall, Hname. }
    split_and!; try (apply Hin; unfold type1_indicators; simpl; tauto).
    case_bool_decide as Hfn; [done|].
    simpl in Hfac. by apply bool_decide_eq_true in Hfac.
  - intros H. repeat case_match; discriminate H.
Qed.

Lemma quantity_numeric_elem (t : Table) (r : row) :
  quantity_numeric t = true → r ∈ rows t →
  is_text (field (columns t) r "Quantity") = false.
Proof.
  unfold quantity_numeric. rewrite forallb_forall. intros H Hr.
  apply negb_true_iff, H. by apply list_elem_of_In.
Qed.

Lemma raw_has_key_columns_elem (raw : Table) :
  raw_has_key_columns raw = true →
  "Facility Name" ∈ columns raw ∧ "Resource Name" ∈ columns raw ∧
  "Month" ∈ columns raw ∧ "Year" ∈ columns raw ∧ "Quantity" ∈ columns raw.
Proof.
  unfold raw_has_key_columns. simpl. rewrite !andb_true_iff, !has_column_true. tauto.
Qed.

(** Whatever the tables, one iteration that does not raise adds one
    record and keeps the counters balanced. *)
Lemma match_row_counters (raw : Table) (cols : list string) (fcol : string)
    (st st' : match_state) (r : row) :
  match_row raw cols fcol st r = Ok st' →
  st_matched_rows st' + st_unmatched_ingestion_rows st' =
    S (st_matched_rows st + st_unmatched_ingestion_rows st) ∧
  st_quantity_matches st' + st_quantity_mismatches st' + st_matched_rows st =
    st_quantity_matches st + st_quantity_mismatches st + st_matched_rows st' ∧
  length (st_results st') = S (length (st_results st)).
Proof.
  unfold match_row, mbind, exc_bind, mret, exc_ret. intros H.
  repeat match type of H with
  | match ?m with Ok _ => _ | Raise _ => _ end = _ => destruct m; [|discriminate H]
  | match ?l with [] => _ | _ :: _ => _ end = _ => destruct l
  end; injection H as <-; simpl; rewrite length_app; simpl;
  try destruct (py_eq _ _); lia.
Qed.

Lemma match_loop_counters (raw : Table) (cols : list string) (fcol : string)
    (rs : list row) (st st' : match_state) :
  match_loop raw cols fcol st rs = Ok st' →
  st_matched_rows st' + st_unmatched_ingestion_rows st' =
    st_matched_rows st + st_unmatched_ingestion_rows st + length rs ∧
  st_quantity_matches st' + st_quantity_mismatches st' + st_matched_rows st =
    st_quantity_matches st + st_quantity_mismatches st + st_matched_rows st' ∧
  length (st_results st') = length (st_results st) + length rs.
Proof.
  revert st. induction rs as [|r rs IH]; intros st; simpl.
  - intros [= <-]. lia.
  - unfold mbind, exc_bind.
    destruct (match_row raw cols fcol st r) as [st1|e] eqn:Hrow; [|done].
    intros Hloop. apply match_row_counters in Hrow. apply IH in Hloop. lia.
Qed.

(** With the key columns in both tables and no text in the quantities,
    one iteration does not raise, and the record it appends is the one
    the specification describes. *)
Lemma match_row_record (raw ing : Table) (st : match_state) (r : row) :
  identify_ingestion_file_type ing = MonthlyRows →
  raw_has_key_columns raw = true →
  quantity_numeric raw = true →
  is_text (field (columns ing) r "Quantity") = false →
  ∃ st' rec,
    match_row raw (columns ing) (ingestion_facility_column ing) st r = Ok st' ∧
    st_results st' = (st_results st ++ [rec])%list ∧
    record_for raw ing r rec.
Proof.
  intros (Hf & Hrn & Hmo & Hyr & Hq & _)%monthly_rows_columns_present
         (Rf & Rrn & Rmo & Ryr & Rq)%raw_has_key_columns_elem Rnum Hnum.
  unfold match_row.
  rewrite !row_get_field by done. simpl.
  rewrite raw_match_filter by done. simpl.
  set (get := field (columns ing) r).
  set (matches := key_matches (columns raw) (get (ingestion_facility_column ing))
                    (get "Resource Name") (get "Month") (get "Year")).
  destruct (filter (λ x, matches x = true) (rows raw)) as [|first rest] eqn:Hfilter.
  - eexists _, _. split; [reflexivity|]. split; [reflexivity|].
    unfold record_for. simpl. split_and!; try done.
    intros before first after Hrows _ Hfirst. exfalso.
    apply (proj1 (filter_is_nil _ _) Hfilter first); [|done].
    rewrite Hrows. apply elem_of_app. right. by left.
  - assert (Hin : first ∈ rows raw ∧ matches first = true).
    { assert (first ∈ filter (λ x, matches x = true) (rows raw)) as Hx
        by (rewrite Hfilter; by left).
      apply list_elem_of_filter in Hx. tauto. }
    destruct Hin as [Hin Hfirst].
    rewrite row_get_field by done. simpl.
    pose proof (quantity_numeric_elem raw first Rnum Hin) as Hrq.
    destruct (py_sub_numeric _ _ Hrq Hnum) as [d Hd]. fold get in Hd. rewrite Hd. simpl.
    eexists _, _. split; [reflexivity|]. split; [reflexivity|].
    unfold record_for. simpl. split_and!; try done.
    + intros Hnone. specialize (Hnone first Hin). fold get matches in Hnone. congruence.
    + intros before first' after Hrows Hbefore Hfirst'. fold get matches in Hbefore, Hfirst'.
      assert (first' = first) as ->.
      { rewrite Hrows, filter_app in Hfilter.
        rewrite (proj2 (filter_is_nil _ before)) in Hfilter.
        - rewrite filter_cons_True in Hfilter by done. by injection Hfilter.
        - intros x Hx. rewrite (Hbefore x Hx). done. }
      split_and!.
      * done.
      * by exists d.
      * intros x y Hx Hy. unfold get in Hd. rewrite Hx, Hy in Hd. simpl in Hd.
        by injection Hd as <-.
      * rewrite <- py_eq_true. by destruct (py_eq _ _).
      * rewrite <- py_eq_true. by destruct (py_eq _ _).
Qed.

Lemma match_loop_records (raw ing : Table) (rs : list row) (st : match_state) :
  identify_ingestion_file_type ing = MonthlyRows →
  raw_has_key_columns raw = true →
  quantity_numeric raw = true →
  (∀ r, r ∈ rs → is_text (field (columns ing) r "Quantity") = false) →
  ∃ st' recs,
    match_loop raw (columns ing) (ingestion_facility_column ing) st rs = Ok st' ∧
    st_results st' = (st_results st ++ recs)%list ∧
    Forall2 (record_for raw ing) rs recs.
Proof.
  intros Hty Hraw Rnum. revert st. induction rs as [|r rs IH]; intros st Hnum.
  - exists st, []. simpl. rewrite app_nil_r. by split_and!.
  - destruct (match_row_record raw ing st r Hty Hraw Rnum) as (st1 & rec & Hrow & Hres & Hrec).
    { apply Hnum. by left. }
    destruct (IH st1) as (st' & recs & Hloop & Hres' & Hrecs).
    { intros x Hx. apply Hnum. by right. }
    exists st', (rec :: recs). simpl. rewrite Hrow. simpl. split_and!.
    + done.
    + rewrite Hres', Hres. by rewrite <- app_assoc.
    + by constructor.
Qed.

Lemma map_ghg_emissions_data_rows (raw ing : Table) :
  identify_ingestion_file_type ing = MonthlyRows →
  raw_has_key_columns raw = true →
  quantity_numeric raw = true →
  quantity_numeric ing = true →
  ∃ m, map_ghg_emissions_data raw ing MonthlyRows = MappingRows m ∧
       Forall2 (record_for raw ing) (rows ing) (comparison_results m).
Proof.
  intros Hty Hraw Rnum Inum.
  destruct (match_loop_records raw ing (rows ing) match_state_init Hty Hraw Rnum)
    as (st' & recs & Hloop & Hres & Hrecs).
  { intros r Hr. by apply quantity_numeric_elem. }
  unfold map_ghg_emissions_data. fold (ingestion_facility_column ing). rewrite Hloop.
  eexists. split; [reflexivity|]. simpl. by rewrite Hres.
Qed.


(** C2. For an ingestion table that is Monthly Data in Rows, whenever
    the matcher answers counters they satisfy matched + unmatched = total
    ingestion rows = number of rows of the ingestion table, and quantity
    matches + quantity mismatches = matched; and it does answer counters
    as soon as the raw table has the key columns and no quantity is
    text. *)
Theorem map_ghg_emissions_data_counters (raw ing : Table) :
  identify_ingestion_file_type ing = MonthlyRows →
  (∀ m, map_ghg_emissions_data raw ing MonthlyRows = MappingRows m →
     total_ingestion_rows m = length (rows ing) ∧
     matched_rows m + unmatched_rows m = total_ingestion_rows m ∧
     quantity_matches m + quantity_mismatches m = matched_rows m) ∧
  (raw_has_key_columns raw = true → quantity_numeric raw = true →
   quantity_numeric ing = true →
   ∃ m, map_ghg_emissions_data raw ing MonthlyRows = MappingRows m ∧
     matched_rows m + unmatched_rows m = total_ingestion_rows m ∧
     quantity_matches m + quantity_mismatches m = matched_rows m).
Proof.
  intros Hty.
  assert (Hinv : ∀ m, map_ghg_emissions_data raw ing MonthlyRows = MappingRows m →
     total_ingestion_rows m = length (rows ing) ∧
     matched_rows m + unmatched_rows m = total_ingestion_rows m ∧
     quantity_matches m + quantity_mismatches m = matched_rows m).
  { intros m. unfold map_ghg_emissions_data.
    destruct (match_loop _ _ _ _ _) as [st|e] eqn:Hloop; [|done].
    intros [= <-]. simpl. apply match_loop_counters in Hloop. simpl in Hloop. lia. }
  split; [exact Hinv|].
  intros Hraw Rnum Inum.
  destruct (map_ghg_emissions_data_rows raw ing Hty Hraw Rnum Inum) as (m & Hm & _).
  exists m. split; [done|]. by destruct (Hinv m Hm) as (_ & ? & ?).
Qed.

(** C2 on the sample tables: two matched rows and one unmatched. *)
Lemma map_ghg_emissions_data_counters_witness :
  identify_ingestion_file_type ingestion_three = MonthlyRows ∧
  ∃ m, map_ghg_emissions_data raw_sample ingestion_three MonthlyRows = MappingRows m ∧
       matched_rows m + unmatched_rows m = 3 ∧
       quantity_matches m + quantity_mismatches m = matched_rows m.
Proof.
  split; [reflexivity|].
  destruct (map_ghg_emissions_data_counters raw_sample ingestion_three eq_refl)
    as [Hinv Hex].
  destruct (Hex eq_refl eq_refl eq_refl) as (m & Hm & _).
  exists m. split; [exact Hm|].
  destruct (Hinv m Hm) as (Htotal & Hsum & Hq).
  split; [|exact Hq]. rewrite Hsum, Htotal. reflexivity.
Defined.

(** ** compare_dataframes *)

(** C6, as stated, fails twice: for Monthly Data in Columns the report
    carries the placeholder and no match record, and with a Scope column
    in an unrecognised layout the matcher is called all the same and its
    error dictionary is in the report. *)
Lemma resource_comparison_not_by_schema :
  (identify_resource_type ingestion_by_columns = GHGEmissions ∧
   identify_ingestion_file_type ingestion_by_columns = MonthlyColumns ∧
   resource_comparison (compare_dataframes raw_sample ingestion_by_columns) =
     Some (GhgCompleted MonthlyColumns MappingColumnsPending) ∧
   ¬ carries_match_records (compare_dataframes raw_sample ingestion_by_columns)) ∧
  (identify_ingestion_file_type ingestion_scope_only = UnknownType ∧
   matcher_invoked (compare_dataframes raw_sample ingestion_scope_only) ∧
   resource_comparison (compare_dataframes raw_sample ingestion_scope_only) =
     Some (GhgError (UnknownIngestionFileType UnknownType))).
Proof.
  split; split_and!; try reflexivity.
  - intros (ty & m & H). discriminate H.
  - by eexists.
Qed.

(** C6, amended. The matcher is called exactly when the resource kind is
    GHG Emissions, whatever the schema (a recognised schema always has
    that resource kind).  The report carries match records and counters
    only for Monthly Data in Rows, and then it does unless the matcher
    raised, which it does not when the raw table has the key columns and
    no quantity is text; for Monthly Data in Columns it carries the
    placeholder, and for an unknown schema the matcher's error. *)
Theorem resource_comparison_cases (raw ing : Table) :
  let c := compare_dataframes raw ing in
  let ty := identify_ingestion_file_type ing in
  (matcher_invoked c ↔ identify_resource_type ing = GHGEmissions) ∧
  (ty ≠ UnknownType → identify_resource_type ing = GHGEmissions) ∧
  (carries_match_records c → ty = MonthlyRows) ∧
  (ty = MonthlyRows →
     carries_match_records c ∨
     ∃ e, resource_comparison c = Some (GhgError (ErrorMapping e))) ∧
  (ty = MonthlyRows → raw_has_key_columns raw = true → quantity_numeric raw = true →
     quantity_numeric ing = true →
     ∃ m, resource_comparison c = Some (GhgCompleted MonthlyRows (MappingRows m)) ∧
          length (comparison_results m) = length (rows ing)) ∧
  (ty = MonthlyColumns →
     resource_comparison c = Some (GhgCompleted MonthlyColumns MappingColumnsPending)) ∧
  (ty = UnknownType → identify_resource_type ing = GHGEmissions →
     resource_comparison c = Some (GhgError (UnknownIngestionFileType UnknownType))).
Proof.
  intros c ty.
  assert (Hscope : ty ≠ UnknownType → identify_resource_type ing = GHGEmissions).
  { unfold ty, identify_resource_type, has_column, identify_ingestion_file_type. cbv zeta.
    intros Hty. destruct (bool_decide ("Scope" ∈ columns ing)) eqn:Hs; [done|].
    apply bool_decide_eq_false in Hs. exfalso. apply Hty.
    assert (∀ l, In "Scope" l → forallb (λ col, bool_decide (col ∈ columns ing)) l = false)
      as Hno.
    { intros l Hl. apply not_true_is_false. rewrite forallb_forall. intros Hall.
      apply Hs. eapply bool_decide_eq_true_1, Hall, Hl. }
    rewrite !Hno, !andb_false_r; [done|..]; simpl; tauto. }
  assert (Hres : resource_comparison c =
            if decide (identify_resource_type ing = GHGEmissions)
            then Some (compare_ghg_emissions_data raw ing ty) else None) by done.
  split_and!.
  - unfold matcher_invoked. rewrite Hres. case_decide; split; try done.
    all: by intros [? ?].
  - done.
  - intros (ty' & m & H). rewrite Hres in H. case_decide; [|done].
    injection H as H. unfold compare_ghg_emissions_data, map_ghg_emissions_data in H.
    fold ty in H. destruct ty; [done|done|done].
  - intros Hty. unfold carries_match_records.
    rewrite Hres, decide_True by (apply Hscope; by rewrite Hty).
    rewrite Hty. unfold compare_ghg_emissions_data.
    destruct (map_ghg_emissions_data raw ing MonthlyRows) as [m| |e] eqn:Hmap.
    + left. by exists MonthlyRows, m.
    + unfold map_ghg_emissions_data in Hmap. by destruct (match_loop _ _ _ _ _).
    + right. unfold map_ghg_emissions_data in Hmap.
      destruct (match_loop _ _ _ _ _) as [|e']; [done|]. injection Hmap as <-. by exists e'.
  - intros Hty Hraw Rnum Inum.
    rewrite Hres, decide_True by (apply Hscope; by rewrite Hty). rewrite Hty.
    destruct (map_ghg_emissions_data_rows raw ing Hty Hraw Rnum Inum) as (m & Hm & Hrecs).
    exists m. unfold compare_ghg_emissions_data. rewrite Hm. split; [done|].
    symmetry. by eapply Forall2_length.
  - intros Hty. rewrite Hres, decide_True by (apply Hscope; by rewrite Hty).
    by rewrite Hty.
  - intros Hty Hghg. rewrite Hres, decide_True by done. by rewrite Hty.
Qed.

(* ===================================================================== *)
(** * Further properties of the code *)
(* ===================================================================== *)

(** ** compare_facility_names: what the sets hold *)

Lemma elem_of_facilities (t : Table) (name : string) (c : cell) :
  c ∈ facilities t name ↔ c ≠ CMissing ∧ c ∈ series t name.
Proof.
  unfold facilities, dropna. rewrite elem_of_list_to_set, list_elem_of_filter.
  destruct c; simpl; split; intros [? ?]; done.
Qed.

(** X1. A value is reported as missing in raw exactly when it is a
    non-missing cell of the ingestion facility column that is no cell of
    the raw [Facility Name] column, and the other way round for missing
    in ingestion; a missing cell is never reported. *)
Theorem compare_facility_names_members (raw ing : Table) :
  has_column raw "Facility Name" = true →
  (has_column ing "Facility Name" || has_column ing "Facility") = true →
  ∃ r, compare_facility_names raw ing = FacilityOk r ∧
    (∀ c, c ∈ missing_in_raw r ↔
       c ≠ CMissing ∧ c ∈ series ing (ingestion_facility_column ing) ∧
       c ∉ series raw "Facility Name") ∧
    (∀ c, c ∈ missing_in_ingestion r ↔
       c ≠ CMissing ∧ c ∈ series raw "Facility Name" ∧
       c ∉ series ing (ingestion_facility_column ing)).
Proof.
  intros Hraw Hing. eexists.
  split; [apply (compare_facility_names_ok raw ing Hraw Hing)|]. simpl.
  split; intros c; rewrite elem_of_difference, !elem_of_facilities; tauto.
Qed.

(** X1 on the sample tables: Plant C is missing in raw. *)
Lemma compare_facility_names_members_witness :
  ∃ r, compare_facility_names raw_sample ingestion_three = FacilityOk r ∧
       CStr "Plant C" ∈ missing_in_raw r.
Proof.
  destruct (compare_facility_names_members raw_sample ingestion_three eq_refl eq_refl)
    as (r & Hr & Hmem & _).
  exists r. split; [exact Hr|]. apply Hmem.
  split; [discriminate|]. split.
  - vm_compute. apply list_elem_of_further, list_elem_of_further, list_elem_of_here.
  - vm_compute. intros H. repeat (apply elem_of_cons in H as [H|H]; [discriminate H|]).
    by apply elem_of_nil in H.
Defined.

(** X2. Nothing is reported as missing in raw exactly when every
    non-missing cell of the ingestion facility column occurs in the raw
    [Facility Name] column. *)
Theorem compare_facility_names_all_present (raw ing : Table) :
  has_column raw "Facility Name" = true →
  (has_column ing "Facility Name" || has_column ing "Facility") = true →
  ∃ r, compare_facility_names raw ing = FacilityOk r ∧
    (missing_in_raw_count r = 0 ↔
       ∀ c, c ∈ series ing (ingestion_facility_column ing) → c ≠ CMissing →
            c ∈ series raw "Facility Name") ∧
    (missing_in_raw_count r = 0 ↔ missing_in_raw r = ∅).
Proof.
  intros Hraw Hing. eexists.
  split; [apply (compare_facility_names_ok raw ing Hraw Hing)|]. simpl.
  set (R := facilities raw "Facility Name").
  set (I := facilities ing (ingestion_facility_column ing)).
  assert (Hsize : size (I ∖ R) = 0 ↔ I ∖ R = ∅).
  { rewrite size_empty_iff. split; [apply leibniz_equiv|by intros ->]. }
  split; [|done]. rewrite Hsize. split.
  - intros Hempty c Hc Hnm.
    destruct (decide (c ∈ series raw "Facility Name")) as [|Hnin]; [done|].
    exfalso. apply (not_elem_of_empty (C:=gset cell) c). rewrite <- Hempty.
    apply elem_of_difference. unfold I, R. rewrite !elem_of_facilities. tauto.
  - intros Hall. apply set_eq. intros c.
    rewrite elem_of_difference. unfold I, R. rewrite !elem_of_facilities. split.
    + intros [[Hnm Hc] Hn]. exfalso. apply Hn. split; [done|]. by apply Hall.
    + intros H. by apply not_elem_of_empty in H.
Qed.

(** X2 on the sample tables: Plant C is not in raw, so the count is not
    zero. *)
Lemma compare_facility_names_all_present_witness :
  ∃ r, compare_facility_names raw_sample ingestion_three = FacilityOk r ∧
       missing_in_raw_count r ≠ 0.
Proof.
  destruct (compare_facility_names_all_present raw_sample ingestion_three eq_refl eq_refl)
    as (r & Hr & Hiff & _).
  exists r. split; [exact Hr|]. intros Hzero.
  assert (CStr "Plant C" ∈ series raw_sample "Facility Name") as Hin.
  { apply (proj1 Hiff Hzero); [|discriminate].
    vm_compute. apply list_elem_of_further, list_elem_of_further, list_elem_of_here. }
  vm_compute in Hin. repeat (apply elem_of_cons in Hin as [Hin|Hin]; [discriminate Hin|]).
  by apply elem_of_nil in Hin.
Defined.

Lemma facilities_permutation (cols : list string) (rs rs' : list row) (name : string) :
  rs ≡ₚ rs' → facilities (mkTable cols rs) name = facilities (mkTable cols rs') name.
Proof.
  intros HP. apply set_eq. intros c. rewrite !elem_of_facilities.
  unfold series, column. simpl. destruct (index_of name cols) as [i|]; [|done].
  rewrite !elem_of_map. by setoid_rewrite HP.
Qed.

(** X4. Compared with itself, a table that has a [Facility Name] column
    has no facility missing on either side, and all its facilities are
    common. *)
Theorem compare_facility_names_self (t : Table) :
  has_column t "Facility Name" = true →
  ∃ r, compare_facility_names t t = FacilityOk r ∧
    missing_in_raw r = ∅ ∧ missing_in_ingestion r = ∅ ∧
    missing_in_raw_count r = 0 ∧ missing_in_ingestion_count r = 0 ∧
    common_facilities_count r = raw_facilities_count r ∧
    raw_facilities_count r = ingestion_facilities_count r.
Proof.
  intros Ht. eexists. split.
  - apply (compare_facility_names_ok t t Ht). by rewrite Ht.
  - simpl. unfold ingestion_facility_column. rewrite Ht.
    rewrite difference_diag_L, size_empty.
    by rewrite (idemp_L (∩)).
Qed.

Lemma compare_facility_names_self_witness :
  ∃ r, compare_facility_names raw_sample raw_sample = FacilityOk r ∧
       missing_in_raw r = ∅ ∧ common_facilities_count r = 2.
Proof.
  destruct (compare_facility_names_self raw_sample eq_refl)
    as (r & Hr & Hm & _ & _ & _ & Hc & _).
  exists r. split; [exact Hr|]. split; [exact Hm|]. rewrite Hc.
  assert (FacilityOk r = compare_facility_names raw_sample raw_sample) as Heq by (by rewrite Hr).
  vm_compute in Heq. by injection Heq as ->.
Defined.

(** ** Month columns *)

Lemma starts_with_prefix (p s : string) :
  starts_with p s = true ↔ ∃ post, s = p ++ post.
Proof.
  revert s. induction p as [|a p IH]; intros s; simpl.
  - split; [by exists s|done].
  - destruct s as [|b s]; [split; [done|by intros [? ?]]|].
    destruct (Ascii.eqb a b) eqn:Hab.
    + apply Ascii.eqb_eq in Hab as ->. rewrite IH. split.
      * intros [post ->]. by exists post.
      * intros [post [= ->]]. by exists post.
    + apply Ascii.eqb_neq in Hab. split; [done|]. by intros [post [= -> _]].
Qed.

Lemma str_contains_substring (needle hay : string) :
  str_contains needle hay = true ↔ ∃ pre post, hay = pre ++ needle ++ post.
Proof.
  induction hay as [|b hay IH]; simpl.
  - rewrite orb_false_r, starts_with_prefix. split.
    + intros [post ->]. by exists "", post.
    + intros (pre & post & H). destruct pre; [by exists post|discriminate H].
  - rewrite orb_true_iff, starts_with_prefix, IH. split.
    + intros [[post ->]|(pre & post & ->)].
      * by exists "", post.
      * by exists (String b pre), post.
    + intros (pre & post & H). destruct pre as [|c pre].
      * left. by exists post.
      * right. injection H as -> ->. by exists pre, post.
Qed.

(** X7. A column counts as a month column exactly when one of the eleven
    tokens Apr-24 ... Feb-25 occurs somewhere in its name; the name need
    not be the token itself. *)
Theorem is_month_column_substring (col : string) :
  is_month_column col = true ↔
    ∃ token pre post, token ∈ month_tokens ∧ col = pre ++ token ++ post.
Proof.
  unfold is_month_column. rewrite existsb_exists. split.
  - intros (token & Hin & (pre & post & ->)%str_contains_substring).
    exists token, pre, post. by rewrite list_elem_of_In.
  - intros (token & pre & post & Hin & ->). exists token.
    rewrite <- list_elem_of_In. split; [done|]. apply str_contains_substring. by eexists _, _.
Qed.

(** ** analyze_data_quality: when there is nothing to report *)

Lemma series_fields (t : Table) (col : string) :
  col ∈ columns t → series t col = map (λ r, field (columns t) r col) (rows t).
Proof.
  intros [i Hi]%index_of_is_Some. unfold series, column, field, row_get. by rewrite Hi.
Qed.

Lemma count_true_zero (mask : list bool) :
  count_true mask = 0 ↔ ∀ b, b ∈ mask → b = false.
Proof.
  unfold count_true. rewrite length_zero_iff_nil, filter_is_nil. split.
  - intros H b Hb. specialize (H b Hb). by destruct b.
  - intros H b Hb ->. by specialize (H true Hb).
Qed.

Lemma null_count_zero (t : Table) (col : string) :
  col ∈ columns t →
  null_count t col = 0 ↔ ∀ r, r ∈ rows t → field (columns t) r col ≠ CMissing.
Proof.
  intros Hcol. unfold null_count. rewrite (series_fields t col Hcol), map_map.
  rewrite count_true_zero. split.
  - intros H r Hr Hm. specialize (H (isnull (field (columns t) r col))).
    rewrite Hm in H. simpl in H. discriminate H. apply elem_of_map. exists r. by rewrite Hm.
  - intros H b (r & -> & Hr)%elem_of_map. specialize (H r Hr).
    by destruct (field (columns t) r col).
Qed.

Lemma null_issues_nil (t : Table) (cols : list string) :
  null_issues t cols = [] ↔ ∀ col, col ∈ cols → null_count t col = 0.
Proof.
  induction cols as [|col cols IH]; simpl.
  - split; [|done]. intros _ col H. by apply elem_of_nil in H.
  - destruct (null_count t col) as [|n] eqn:Hn; simpl.
    + rewrite IH. split.
      * intros H c [->|Hc]%elem_of_cons; [done|by apply H].
      * intros H c Hc. apply H. by right.
    + split; [done|]. intros H. specialize (H col (list_elem_of_here _ _)). lia.
Qed.

Lemma identifying_columns_subset (ty : ingestion_type) (cols : list string) (col : string) :
  col ∈ identifying_columns ty cols → col ∈ cols.
Proof.
  destruct ty; simpl; [| |done]; by intros [_ ?]%list_elem_of_filter.
Qed.

(** X8. The analysis reports no issue exactly when no identifying column
    has a missing cell and no two rows agree on all identifying columns;
    the duplicate rows are absent exactly in the second case alone; a
    table without rows has no issue and no duplicate rows. *)
Theorem analyze_data_quality_clean (raw ing : Table) :
  let ty := identify_ingestion_file_type ing in
  let subset := identifying_columns ty (columns ing) in
  let keys := map (project (columns ing) subset) (rows ing) in
  (quality_issues (analyze_data_quality raw ing) = [] ↔
     (∀ col r, col ∈ subset → r ∈ rows ing → field (columns ing) r col ≠ CMissing) ∧
     NoDup keys) ∧
  (duplicate_rows (analyze_data_quality raw ing) = None ↔ NoDup keys) ∧
  (rows ing = [] → analyze_data_quality raw ing = mkQualityReport [] None).
Proof.
  intros ty subset keys.
  rewrite (analyze_data_quality_unfold raw ing). fold ty subset.
  unfold check_nulls_and_duplicates, duplicated. fold keys.
  pose proof (duplicated_first_none keys []) as Hnone.
  assert (Hdup : count_true (duplicated_first [] keys) = 0 ↔ NoDup keys).
  { rewrite Hnone. split; [tauto|]. intros H. split; [done|]. intros k _.
    apply not_elem_of_nil. }
  assert (Hnull : null_issues ing subset = [] ↔
            ∀ col r, col ∈ subset → r ∈ rows ing → field (columns ing) r col ≠ CMissing).
  { rewrite null_issues_nil. split.
    - intros H col r Hcol. apply null_count_zero; [|by apply H].
      by eapply identifying_columns_subset.
    - intros H col Hcol. apply null_count_zero; [by eapply identifying_columns_subset|].
      intros r. by apply H. }
  split_and!.
  - destruct (count_true (duplicated_first [] keys)) as [|n]; simpl.
    + rewrite Hnull. split; [intros H; split; [done|by apply Hdup]|tauto].
    + split.
      * intros H. by apply app_eq_nil in H as [_ ?].
      * intros [_ H%Hdup]. lia.
  - destruct (count_true (duplicated_first [] keys)) as [|n]; simpl.
    + split; [intros _; by apply Hdup|done].
    + split; [done|]. intros H%Hdup. lia.
  - intros Hrows.
    assert (Hkeys : keys = []) by (unfold keys; by rewrite Hrows).
    rewrite Hkeys. simpl.
    assert (null_issues ing subset = []) as ->; [|done].
    apply Hnull. intros col r _ Hr. rewrite Hrows in Hr. by apply elem_of_nil in Hr.
Qed.

(** ** analyze_data_quality: the stated count and the returned rows *)

Lemma duplicated_first_le_all (keys seen : list (list cell)) :
  count_true (duplicated_first seen keys) ≤ count_true (duplicated_all seen keys).
Proof.
  revert seen. induction keys as [|k keys IH]; intros seen; simpl; [done|].
  rewrite !count_true_cons. specialize (IH (k :: seen)).
  destruct (bool_decide (k ∈ seen)); simpl; [lia|].
  destruct (bool_decide (k ∈ keys)); lia.
Qed.

Lemma seen_count_cons (k : list cell) (seen keys : list (list cell)) :
  length (filter (λ x, x ∈ k :: seen) keys) =
    if bool_decide (k ∈ seen) then length (filter (λ x, x ∈ seen) keys)
    else length (filter (λ x, x ∈ seen) keys) + occurrences k keys.
Proof.
  induction keys as [|x keys IH]; [by case_bool_decide|].
  rewrite occurrences_cons.
  destruct (decide (x ∈ seen)) as [Hx|Hx].
  - rewrite !filter_cons_True by (done || by right). simpl. rewrite IH.
    case_bool_decide as Hk; [done|].
    rewrite decide_False by (intros ->; done). lia.
  - rewrite (filter_cons_False (λ x, x ∈ seen)) by done.
    destruct (decide (x = k)) as [->|Hne].
    + rewrite filter_cons_True by (by left). simpl. rewrite IH.
      rewrite bool_decide_false by done. lia.
    + rewrite filter_cons_False.
      * rewrite IH. case_bool_decide; lia.
      * intros [->|?]%elem_of_cons; done.
Qed.

Lemma duplicated_all_le_twice (keys seen : list (list cell)) :
  count_true (duplicated_all seen keys) + length (filter (λ x, x ∈ seen) keys)
    ≤ 2 * count_true (duplicated_first seen keys).
Proof.
  revert seen. induction keys as [|k keys IH]; intros seen; simpl; [done|].
  rewrite !count_true_cons. specialize (IH (k :: seen)).
  rewrite seen_count_cons in IH.
  destruct (bool_decide (k ∈ seen)) eqn:Hk; simpl.
  - apply bool_decide_eq_true in Hk. rewrite filter_cons_True by done. simpl. lia.
  - apply bool_decide_eq_false in Hk. rewrite filter_cons_False by done.
    case_bool_decide as Hin; [|lia].
    apply occurrences_pos in Hin. lia.
Qed.

Lemma duplicated_first_lt_all (keys seen : list (list cell)) :
  length (filter (λ x, x ∈ seen) keys) < count_true (duplicated_first seen keys) →
  count_true (duplicated_first seen keys) < count_true (duplicated_all seen keys).
Proof.
  revert seen. induction keys as [|k keys IH]; intros seen; simpl.
  { unfold count_true. simpl. lia. }
  rewrite !count_true_cons. specialize (IH (k :: seen)).
  rewrite seen_count_cons in IH.
  pose proof (duplicated_first_le_all keys (k :: seen)) as Hle.
  destruct (bool_decide (k ∈ seen)) eqn:Hk; simpl.
  - apply bool_decide_eq_true in Hk. rewrite filter_cons_True by done. simpl. lia.
  - apply bool_decide_eq_false in Hk. rewrite filter_cons_False by done.
    case_bool_decide as Hin; [lia|].
    assert (occurrences k keys = 0) as Hz.
    { destruct (occurrences k keys) eqn:Ho; [done|].
      exfalso. apply Hin, occurrences_pos. lia. }
    rewrite Hz in IH. simpl. intros H. apply IH. lia.
Qed.

Lemma duplicated_all_length (keys seen : list (list cell)) :
  length (duplicated_all seen keys) = length keys.
Proof. revert seen. induction keys as [|k keys IH]; intros seen; simpl; [done|]. by rewrite IH. Qed.

Lemma select_rows_length (mask : list bool) (rs : list row) :
  length mask = length rs → length (select_rows mask rs) = count_true mask.
Proof.
  revert rs. induction mask as [|b mask IH]; intros [|r rs] Hlen; try done.
  simpl. rewrite count_true_cons. injection Hlen as Hlen.
  destruct b; simpl; rewrite IH by done; lia.
Qed.

(** X9. When duplicate rows are returned, the issue states a count [n]
    of at least 1, and the returned table, which has the columns of the
    ingestion table, has more than [n] and at most [2 n] rows: at least
    two.  When none are returned the count is zero. *)
Theorem duplicate_rows_size (raw ing : Table) :
  let ty := identify_ingestion_file_type ing in
  let n := repeated_rows ing (identifying_columns ty (columns ing)) in
  match duplicate_rows (analyze_data_quality raw ing) with
  | Some d =>
      columns d = columns ing ∧
      1 ≤ n ∧ n < length (rows d) ∧ length (rows d) ≤ 2 * n ∧
      last (quality_issues (analyze_data_quality raw ing)) = Some (duplicate_message ty n)
  | None => n = 0
  end.
Proof.
  intros ty n. rewrite (analyze_data_quality_unfold raw ing). fold ty.
  set (subset := identifying_columns ty (columns ing)) in *.
  unfold check_nulls_and_duplicates.
  assert (Hn : count_true (duplicated ing subset KeepFirst) = n).
  { unfold n, repeated_rows, duplicated. by rewrite duplicated_first_repeats. }
  rewrite Hn. destruct n as [|n']; [done|]. simpl.
  unfold duplicated in *. set (keys := map (project (columns ing) subset) (rows ing)) in *.
  rewrite select_rows_length by (unfold keys; by rewrite duplicated_all_length, length_map).
  pose proof (duplicated_all_le_twice keys []) as Hup.
  pose proof (duplicated_first_lt_all keys []) as Hlow.
  assert (filter (λ x : list cell, x ∈ []) keys = []) as Hnil.
  { apply filter_is_nil. intros x _. apply not_elem_of_nil. }
  rewrite Hnil in Hup, Hlow. simpl in Hup, Hlow. rewrite Hn in Hup, Hlow.
  split_and!; [done|lia|lia|lia|]. by rewrite last_snoc.
Qed.

(** ** analyze_data_quality: the Quantity column is not looked at *)

Lemma index_of_inj (a b : string) (cols : list string) (i : nat) :
  index_of a cols = Some i → index_of b cols = Some i → a = b.
Proof.
  revert i. induction cols as [|c cols IH]; intros i; simpl; [done|].
  case_bool_decide as Ha; case_bool_decide as Hb.
  - congruence.
  - intros [= <-]. by destruct (index_of b cols).
  - destruct (index_of a cols); [|done]. by intros [= <-].
  - destruct (index_of a cols) as [ia|] eqn:Hia; [|done].
    destruct (index_of b cols) as [ib|] eqn:Hib; [|done].
    simpl. intros [= <-] [= ->]. by eapply IH.
Qed.

Lemma cell_at_insert_ne (r : row) (i j : nat) (v : cell) :
  i ≠ j → cell_at (<[i := v]> r) j = cell_at r j.
Proof. intros Hne. unfold cell_at. f_equal. by apply list_lookup_insert_ne. Qed.

Lemma row_get_insert_other (cols : list string) (r : row) (i : nat) (v : cell)
    (name : string) :
  index_of "Quantity" cols = Some i → name ≠ "Quantity" →
  row_get cols (<[i := v]> r) name = row_get cols r name.
Proof.
  intros Hq Hne. unfold row_get. destruct (index_of name cols) as [j|] eqn:Hj; [|done].
  rewrite cell_at_insert_ne; [done|]. intros <-. apply Hne. by eapply index_of_inj.
Qed.

Lemma project_insert_other (cols subset : list string) (r : row) (i : nat) (v : cell) :
  index_of "Quantity" cols = Some i → "Quantity" ∉ subset →
  project cols subset (<[i := v]> r) = project cols subset r.
Proof.
  intros Hq Hsub. unfold project. apply map_ext_in. intros name Hname.
  rewrite (row_get_insert_other cols r i v name Hq); [done|].
  intros ->. by apply Hsub, list_elem_of_In.
Qed.

Lemma null_issues_ext (t t' : Table) (cols : list string) :
  (∀ col, col ∈ cols → null_count t col = null_count t' col) →
  null_issues t cols = null_issues t' cols.
Proof.
  induction cols as [|col cols IH]; intros H; simpl; [done|].
  rewrite (H col) by (by left). rewrite IH; [done|]. intros c Hc. apply H. by right.
Qed.

Lemma select_rows_fmap (f : row → row) (mask : list bool) (rs : list row) :
  select_rows mask (map f rs) = map f (select_rows mask rs).
Proof.
  revert rs. induction mask as [|b mask IH]; intros [|r rs]; simpl; try done.
  destruct b; simpl; by rewrite IH.
Qed.

(** X10. For a table that is Monthly Data in Rows, overwriting the
    Quantity cell of every row, with any values, changes no issue of the
    analysis, and the duplicate rows returned are the same rows with
    their Quantity overwritten: neither missing quantities nor differing
    quantities are ever reported. *)
Theorem analyze_data_quality_ignores_quantity (raw ing : Table) (g : row → cell) :
  identify_ingestion_file_type ing = MonthlyRows →
  quality_issues (analyze_data_quality raw (overwrite_quantity g ing)) =
    quality_issues (analyze_data_quality raw ing) ∧
  duplicate_rows (analyze_data_quality raw (overwrite_quantity g ing)) =
    overwrite_quantity g <$> duplicate_rows (analyze_data_quality raw ing).
Proof.
  intros Hty.
  destruct (monthly_rows_columns_present ing Hty) as (_ & _ & _ & _ & Hq & _).
  destruct (index_of_is_Some _ _ Hq) as [i Hi].
  assert (Hover : ∀ rs, overwrite_quantity g (mkTable (columns ing) rs) =
            mkTable (columns ing) (map (λ r, <[i := g r]> r) rs)).
  { intros rs. unfold overwrite_quantity. simpl. by rewrite Hi. }
  assert (Hing : overwrite_quantity g ing =
            mkTable (columns ing) (map (λ r, <[i := g r]> r) (rows ing))).
  { destruct ing as [cols rs]. apply Hover. }
  set (ing' := mkTable (columns ing) (map (λ r, <[i := g r]> r) (rows ing))) in *.
  rewrite Hing.
  assert (Hty' : identify_ingestion_file_type ing' = MonthlyRows) by exact Hty.
  rewrite (analyze_data_quality_unfold raw ing'), (analyze_data_quality_unfold raw ing).
  rewrite Hty', Hty. simpl identifying_columns.
  set (subset := filter (λ col, col ≠ "Quantity") (columns ing)).
  assert (Hsub : "Quantity" ∉ subset).
  { intros [Hne _]%list_elem_of_filter. done. }
  assert (Hnull : null_issues ing' subset = null_issues ing subset).
  { apply null_issues_ext. intros col Hcol.
    assert (col ≠ "Quantity") as Hne by (intros ->; done).
    assert (series ing' col = series ing col) as Hseries.
    { unfold series, column. simpl.
      destruct (index_of col (columns ing)) as [j|] eqn:Hj; [|done].
      rewrite map_map. apply map_ext. intros r.
      apply cell_at_insert_ne. intros <-. apply Hne. symmetry. by eapply index_of_inj. }
    unfold null_count. by rewrite Hseries. }
  assert (Hkeys : map (project (columns ing) subset) (rows ing') =
            map (project (columns ing) subset) (rows ing)).
  { simpl. rewrite map_map. apply map_ext. intros r.
    by apply project_insert_other. }
  unfold check_nulls_and_duplicates, duplicated. simpl columns.
  rewrite Hkeys, Hnull.
  destruct (0 <? count_true _); simpl; [|done].
  split; [done|]. by rewrite Hover, select_rows_fmap.
Qed.

(** X10 on the two sample rows with their quantities made missing: the
    one issue is still the duplicate. *)
Lemma analyze_data_quality_ignores_quantity_witness :
  identify_ingestion_file_type ingestion_twice = MonthlyRows ∧
  quality_issues
    (analyze_data_quality raw_sample (overwrite_quantity (λ _, CMissing) ingestion_twice)) =
    [duplicate_message MonthlyRows 1].
Proof.
  split; [reflexivity|].
  destruct (analyze_data_quality_ignores_quantity raw_sample ingestion_twice
              (λ _, CMissing) eq_refl) as [Hissues _].
  rewrite Hissues. reflexivity.
Defined.

(** ** map_ghg_emissions_data: errors *)

Lemma column_missing (t : Table) (name : string) :
  has_column t name = false → column t name = Raise (KeyError name).
Proof.
  intros H%has_column_false%index_of_None. unfold column. by rewrite H.
Qed.

(** [raw_match] raises the [KeyError] of the first key column the raw
    table lacks. *)
Lemma raw_match_missing_key (raw : Table) (fn rn mo yr : cell) (k : string) :
  first_missing_key raw = Some k →
  raw_match raw fn rn mo yr = Raise (KeyError k).
Proof.
  unfold first_missing_key, raw_key_columns, raw_match. simpl.
  destruct (has_column raw "Facility Name") eqn:H1; simpl;
    [rewrite (column_series _ _ H1)|intros [= <-]; by rewrite (column_missing _ _ H1)].
  destruct (has_column raw "Resource Name") eqn:H2; simpl;
    [rewrite (column_series _ _ H2)|intros [= <-]; by rewrite (column_missing _ _ H2)].
  destruct (has_column raw "Month") eqn:H3; simpl;
    [rewrite (column_series _ _ H3)|intros [= <-]; by rewrite (column_missing _ _ H3)].
  destruct (has_column raw "Year") eqn:H4; simpl;
    [done|intros [= <-]; by rewrite (column_missing _ _ H4)].
Qed.

(** X11. When the raw table lacks one of the four key columns, the
    matcher answers the error of the first one it lacks as soon as the
    ingestion table has a row, and with no row it answers a mapping with
    no record and all counters at zero. *)
Theorem map_ghg_emissions_data_missing_key (raw ing : Table) (k : string) :
  identify_ingestion_file_type ing = MonthlyRows →
  first_missing_key raw = Some k →
  k ∈ raw_key_columns ∧ (k ∉ columns raw) ∧
  (rows ing = [] →
     map_ghg_emissions_data raw ing MonthlyRows = MappingRows (mkRowsMapping 0 0 0 0 0 [])) ∧
  (rows ing ≠ [] →
     map_ghg_emissions_data raw ing MonthlyRows = MappingError (ErrorMapping (KeyError k))).
Proof.
  intros Hty Hk.
  destruct (monthly_rows_columns_present ing Hty) as (Hf & Hrn & Hmo & Hyr & Hq & _).
  split_and!.
  - unfold first_missing_key in Hk. apply find_some in Hk as [Hin _].
    by apply list_elem_of_In.
  - unfold first_missing_key in Hk. apply find_some in Hk as [_ Hno].
    by apply negb_true_iff, has_column_false in Hno.
  - intros Hrows. unfold map_ghg_emissions_data. by rewrite Hrows.
  - intros Hrows. unfold map_ghg_emissions_data. fold (ingestion_facility_column ing).
    destruct (rows ing) as [|r rs]; [done|]. simpl.
    unfold match_row. rewrite !row_get_field by done. simpl.
    by rewrite (raw_match_missing_key raw _ _ _ _ k Hk).
Qed.

(** X11 on the raw table without columns and one ingestion row. *)
Lemma map_ghg_emissions_data_missing_key_witness :
  identify_ingestion_file_type ingestion_one = MonthlyRows ∧
  first_missing_key raw_empty = Some "Facility Name" ∧
  map_ghg_emissions_data raw_empty ingestion_one MonthlyRows =
    MappingError (ErrorMapping (KeyError "Facility Name")).
Proof.
  split; [reflexivity|]. split; [reflexivity|].
  destruct (map_ghg_emissions_data_missing_key raw_empty ingestion_one "Facility Name"
              eq_refl eq_refl) as (_ & _ & _ & Herr).
  apply Herr. discriminate.
Defined.






(** ** map_ghg_emissions_data: the counters count the records *)

Lemma count_status_snoc (s : match_status) (recs : list MatchRecord) (rec : MatchRecord) :
  count_status s (recs ++ [rec])%list =
    count_status s recs + (if decide (status rec = s) then 1 else 0).
Proof.
  unfold count_status. rewrite filter_app, length_app. f_equal.
  destruct (decide (status rec = s)).
  - by rewrite filter_cons_True.
  - by rewrite filter_cons_False.
Qed.

Lemma count_status_one (s : match_status) (rec : MatchRecord) :
  count_status s [rec] = if decide (status rec = s) then 1 else 0.
Proof. exact (count_status_snoc s [] rec). Qed.

Lemma count_status_app (s : match_status) (l1 l2 : list MatchRecord) :
  count_status s (l1 ++ l2)%list = count_status s l1 + count_status s l2.
Proof. unfold count_status. by rewrite filter_app, length_app. Qed.

(** What one iteration that does not raise adds: one record, and one to
    the counters that go with its status. *)
Lemma match_row_step (raw : Table) (cols : list string) (fcol : string)
    (st st' : match_state) (r : row) :
  match_row raw cols fcol st r = Ok st' →
  ∃ rec,
    st_results st' = (st_results st ++ [rec])%list ∧
    st_unmatched_ingestion_rows st' =
      st_unmatched_ingestion_rows st + count_status NoMatchInRawData [rec] ∧
    st_quantity_matches st' = st_quantity_matches st + count_status Match [rec] ∧
    st_quantity_mismatches st' = st_quantity_mismatches st + count_status Mismatch [rec] ∧
    st_matched_rows st' =
      st_matched_rows st + count_status Match [rec] + count_status Mismatch [rec] ∧
    (status rec = NoMatchInRawData ↔ raw_quantity rec = None) ∧
    (status rec = NoMatchInRawData ↔ difference rec = None).
Proof.
  unfold match_row, mbind, exc_bind, mret, exc_ret. intros H.
  repeat match type of H with
  | match ?m with Ok _ => _ | Raise _ => _ end = _ => destruct m; [|discriminate H]
  | match ?l with [] => _ | _ :: _ => _ end = _ => destruct l
  end; injection H as <-; simpl; eexists; (split; [reflexivity|]);
  rewrite !count_status_one; simpl.
  - split_and!; (lia || done).
  - destruct (py_eq _ _); simpl; split_and!; (lia || done).
Qed.

Lemma match_loop_status (raw : Table) (cols : list string) (fcol : string)
    (rs : list row) (st st' : match_state) :
  match_loop raw cols fcol st rs = Ok st' →
  ∃ recs,
    st_results st' = (st_results st ++ recs)%list ∧
    st_unmatched_ingestion_rows st' =
      st_unmatched_ingestion_rows st + count_status NoMatchInRawData recs ∧
    st_quantity_matches st' = st_quantity_matches st + count_status Match recs ∧
    st_quantity_mismatches st' = st_quantity_mismatches st + count_status Mismatch recs ∧
    st_matched_rows st' =
      st_matched_rows st + count_status Match recs + count_status Mismatch recs ∧
    Forall (λ rec, (status rec = NoMatchInRawData ↔ raw_quantity rec = None) ∧
                   (status rec = NoMatchInRawData ↔ difference rec = None)) recs.
Proof.
  revert st. induction rs as [|r rs IH]; intros st; simpl.
  - intros [= <-]. exists []. rewrite app_nil_r. unfold count_status. simpl.
    split_and!; (lia || done || constructor).
  - unfold mbind, exc_bind.
    destruct (match_row raw cols fcol st r) as [st1|e] eqn:Hrow; [|done].
    intros Hloop. apply match_row_step in Hrow as (rec & H0 & H1 & H2 & H3 & H4 & H5).
    apply IH in Hloop as (recs & G0 & G1 & G2 & G3 & G4 & G5).
    exists (rec :: recs).
    change (rec :: recs) with ([rec] ++ recs)%list.
    rewrite !count_status_app. split_and!; try lia.
    + rewrite G0, H0. by rewrite <- app_assoc.
    + by constructor.
Qed.

(** X13. In every mapping the matcher answers, the counters count the
    records: unmatched rows are the records of status No Match in Raw
    Data, quantity matches those of status Match, quantity mismatches
    those of status Mismatch and matched rows the last two together; and
    a record has a null raw quantity, and a null difference, exactly when
    its status is No Match in Raw Data. *)
Theorem map_ghg_emissions_data_counts_records (raw ing : Table) (m : RowsMapping) :
  map_ghg_emissions_data raw ing MonthlyRows = MappingRows m →
  let recs := comparison_results m in
  unmatched_rows m = count_status NoMatchInRawData recs ∧
  quantity_matches m = count_status Match recs ∧
  quantity_mismatches m = count_status Mismatch recs ∧
  matched_rows m = count_status Match recs + count_status Mismatch recs ∧
  Forall (λ rec, (status rec = NoMatchInRawData ↔ raw_quantity rec = None) ∧
                 (status rec = NoMatchInRawData ↔ difference rec = None)) recs.
Proof.
  unfold map_ghg_emissions_data.
  destruct (match_loop _ _ _ _ _) as [st|e] eqn:Hloop; [|done].
  intros [= <-]. simpl.
  apply match_loop_status in Hloop as (recs & G0 & G1 & G2 & G3 & G4 & G5).
  simpl in *. subst recs. by split_and!.
Qed.

(** X13 on the sample tables: one record of each status. *)
Lemma map_ghg_emissions_data_counts_records_witness :
  ∃ m, map_ghg_emissions_data raw_sample ingestion_three MonthlyRows = MappingRows m ∧
       unmatched_rows m = count_status NoMatchInRawData (comparison_results m) ∧
       unmatched_rows m = 1 ∧ quantity_matches m = 1 ∧ quantity_mismatches m = 1.
Proof.
  eexists. split; [reflexivity|].
  split; [|by split_and!].
  apply (map_ghg_emissions_data_counts_records raw_sample ingestion_three). reflexivity.
Defined.

(** ** map_ghg_emissions_data: missing cells in the key *)




(** ** compare_dataframes: the basic figures *)

(** X15. The three column sets of the report split the column names of
    the two tables: a name is common when both tables have it, raw-only
    or ingestion-only when one has it and the other has not; the three
    sets are pairwise disjoint, and for a raw table without repeated
    column names the common and the raw-only names add up to its number
    of columns (likewise for the ingestion table). *)
Theorem compare_dataframes_columns (raw ing : Table) :
  let c := compare_dataframes raw ing in
  (∀ x, x ∈ common_columns c ↔ x ∈ columns raw ∧ x ∈ columns ing) ∧
  (∀ x, x ∈ raw_data_only_columns c ↔ x ∈ columns raw ∧ x ∉ columns ing) ∧
  (∀ x, x ∈ ingestion_only_columns c ↔ x ∈ columns ing ∧ x ∉ columns raw) ∧
  common_columns c ## raw_data_only_columns c ∧
  common_columns c ## ingestion_only_columns c ∧
  raw_data_only_columns c ## ingestion_only_columns c ∧
  (NoDup (columns raw) →
     size (common_columns c) + size (raw_data_only_columns c) = raw_data_cols c) ∧
  (NoDup (columns ing) →
     size (common_columns c) + size (ingestion_only_columns c) = ingestion_cols c).
Proof.
  simpl.
  set (R := list_to_set (columns raw) : gset string).
  set (I := list_to_set (columns ing) : gset string).
  assert (HR : ∀ x, x ∈ R ↔ x ∈ columns raw) by (intros x; apply elem_of_list_to_set).
  assert (HI : ∀ x, x ∈ I ↔ x ∈ columns ing) by (intros x; apply elem_of_list_to_set).
  split_and!.
  - intros x. by rewrite elem_of_intersection, HR, HI.
  - intros x. by rewrite elem_of_difference, HR, HI.
  - intros x. by rewrite elem_of_difference, HR, HI.
  - intros x. rewrite elem_of_intersection, elem_of_difference. tauto.
  - intros x. rewrite elem_of_intersection, elem_of_difference. tauto.
  - intros x. rewrite !elem_of_difference. tauto.
  - intros Hnd. rewrite <- (size_list_to_set (C:=gset string) (columns raw) Hnd). fold R.
    rewrite <- size_union
      by (intros x; rewrite elem_of_intersection, elem_of_difference; tauto).
    f_equal. apply set_eq. intros x.
    rewrite elem_of_union, elem_of_intersection, elem_of_difference.
    destruct (decide (x ∈ I)); tauto.
  - intros Hnd. rewrite <- (size_list_to_set (C:=gset string) (columns ing) Hnd). fold I.
    rewrite <- size_union
      by (intros x; rewrite elem_of_intersection, elem_of_difference; tauto).
    f_equal. apply set_eq. intros x.
    rewrite elem_of_union, elem_of_intersection, elem_of_difference.
    destruct (decide (x ∈ R)); tauto.
Qed.

(** X16. The report's [missing_in_ingestion] figure is the positive part
    of [row_difference], which is the number of raw rows less the number
    of ingestion rows and is negative when the ingestion table is the
    longer one; the figure is zero exactly when the raw table has no more
    rows than the ingestion table. *)
Theorem compare_dataframes_row_difference (raw ing : Table) :
  let c := compare_dataframes raw ing in
  row_difference c = (Z.of_nat (raw_data_rows c) - Z.of_nat (ingestion_rows c))%Z ∧
  Z.of_nat (rows_missing_in_ingestion c) = Z.max 0 (row_difference c) ∧
  (rows_missing_in_ingestion c = 0 ↔ length (rows raw) ≤ length (rows ing)) ∧
  ((row_difference c < 0)%Z ↔ length (rows raw) < length (rows ing)).
Proof.
  simpl. destruct (length (rows ing) <? length (rows raw)) eqn:E.
  - apply Nat.ltb_lt in E. split_and!; lia.
  - apply Nat.ltb_ge in E. split_and!; lia.
Qed.

(** ** identify_file_types *)

(** X17. The file given the raw role is never the smaller one; the two
    roles are the two files, each with its own table and name; and when
    the sizes are equal the second file is the raw one. *)
Theorem identify_file_types_roles (file1 file2 : UploadedFile) (df1 df2 : Table) :
  let r := identify_file_types file1 file2 df1 df2 in
  file_size (role_file (ingestion r)) ≤ file_size (role_file (raw_data r)) ∧
  ((raw_data r = mkFileRole file1 df1 (file_name file1) "Raw Data File" ∧
    ingestion r = mkFileRole file2 df2 (file_name file2) "Ingestion File") ∨
   (raw_data r = mkFileRole file2 df2 (file_name file2) "Raw Data File" ∧
    ingestion r = mkFileRole file1 df1 (file_name file1) "Ingestion File")) ∧
  (file_size file1 = file_size file2 →
   role_file (raw_data r) = file2 ∧ role_file (ingestion r) = file1).
Proof.
  unfold identify_file_types. cbv zeta.
  destruct (file_size file2 <? file_size file1) eqn:E; simpl.
  - apply Nat.ltb_lt in E. split_and!; [lia|by left|lia].
  - apply Nat.ltb_ge in E. split_and!; [lia|by right|done].
Qed.

(** X18. When the two files differ in size, the roles do not depend on
    the order in which the files are given. *)
Theorem identify_file_types_order (file1 file2 : UploadedFile) (df1 df2 : Table) :
  file_size file1 ≠ file_size file2 →
  identify_file_types file2 file1 df2 df1 = identify_file_types file1 file2 df1 df2.
Proof.
  intros Hne. unfold identify_file_types. cbv zeta.
  destruct (file_size file2 <? file_size file1) eqn:E1;
  destruct (file_size file1 <? file_size file2) eqn:E2; try done.
  - apply Nat.ltb_lt in E1, E2. lia.
  - apply Nat.ltb_ge in E1, E2. lia.
Qed.

Lemma identify_file_types_order_witness :
  file_size file_small ≠ file_size file_large ∧
  identify_file_types file_large file_small raw_sample ingestion_one =
    identify_file_types file_small file_large ingestion_one raw_sample ∧
  role_file (raw_data (identify_file_types file_small file_large ingestion_one raw_sample)) =
    file_large.
Proof.
  split; [discriminate|]. split; [|reflexivity].
  apply identify_file_types_order. discriminate.
Defined.

(** ** The choice of the raw data sheet *)

(** X19. A sheet that is chosen is a sheet of the raw file.  For an
    ingestion table with a Scope column the only sheet ever chosen is the
    one named GHG Emissions, without warning, and its absence is an
    error: the first sheet is no fallback.  Without a Scope column the
    first sheet is chosen, with a warning. *)
Theorem choose_raw_data_sheet_cases (ing : Table) (raw_sheets : list string) :
  (∀ s w, choose_raw_data_sheet ing raw_sheets = SheetChosen s w → s ∈ raw_sheets) ∧
  ("Scope" ∈ columns ing →
     choose_raw_data_sheet ing raw_sheets =
       if bool_decide ("GHG Emissions" ∈ raw_sheets)
       then SheetChosen "GHG Emissions" false else SheetNotFound "GHG Emissions") ∧
  ("Scope" ∉ columns ing →
     ∀ s w, choose_raw_data_sheet ing raw_sheets = SheetChosen s w →
            head raw_sheets = Some s ∧ w = true) ∧
  ("Scope" ∉ columns ing →
     choose_raw_data_sheet ing raw_sheets = NoFirstSheet ↔
       raw_sheets = [] ∨ head raw_sheets = Some "").
Proof.
  unfold choose_raw_data_sheet, identify_resource_type, has_column.
  destruct (bool_decide ("Scope" ∈ columns ing)) eqn:Hs; simpl.
  - apply bool_decide_eq_true in Hs. split_and!; try done.
    intros s w. case_bool_decide as Hin; [|done]. by intros [= <- <-].
  - apply bool_decide_eq_false in Hs. split_and!; try done.
    + intros s w. destruct raw_sheets as [|first rest]; [done|].
      case_bool_decide; [done|]. intros [= <- <-]. by left.
    + intros _ s w. destruct raw_sheets as [|first rest]; [done|].
      case_bool_decide; [done|]. by intros [= <- <-].
    + intros _. destruct raw_sheets as [|first rest]; simpl.
      * split; [by left|done].
      * case_bool_decide as Hf.
        -- subst first. split; [by right|done].
        -- split; [done|]. intros [?|[= ?]]; done.
Qed.

(** ** map_ghg_emissions_data: a raw table without Quantity *)





(* ===================================================================== *)
(** * identify_ingestion_file_type on headers of any kind *)
(* ===================================================================== *)

(** The scan for month columns raises exactly when a header is not text,
    and otherwise keeps the text headers that carry a month token. *)
Lemma month_headers_spec (hs : list header) :
  month_headers hs =
    if forallb header_is_text hs
    then Ok (filter (λ col, header_has_month col = true) hs)
    else Raise TypeError.
Proof.
  induction hs as [|h hs IH]; [done|]. simpl. destruct h as [name|shown]; simpl; [|done].
  rewrite IH. destruct (forallb header_is_text hs); simpl; [|done].
  destruct (is_month_column name) eqn:Hm.
  - by rewrite filter_cons_True.
  - rewrite filter_cons_False; [done|]. simpl. by rewrite Hm.
Qed.

(** The function by cases on what it observes of the headers. *)
Lemma identify_ingestion_file_type_headers_unfold (hs : list header) :
  identify_ingestion_file_type_headers hs =
    let has_facility :=
      bool_decide (Text "Facility Name" ∈ hs) || bool_decide (Text "Facility" ∈ hs) in
    if has_facility && forallb (λ col, bool_decide (Text col ∈ hs)) type1_indicators
    then Classified MonthlyRows
    else if has_facility && forallb (λ col, bool_decide (Text col ∈ hs)) type2_indicators
    then
      if forallb header_is_text hs
      then Classified (if 3 <=? month_header_count hs then MonthlyColumns else UnknownType)
      else ClassificationError TypeError
    else Classified UnknownType.
Proof.
  unfold identify_ingestion_file_type_headers, month_header_count. cbv zeta.
  rewrite month_headers_spec.
  destruct (_ && forallb _ type1_indicators); [done|].
  destruct (_ && forallb _ type2_indicators); [|done].
  by destruct (forallb header_is_text hs).
Qed.

Lemma forallb_ext_elem {A} (f g : A → bool) (l : list A) :
  (∀ x, In x l → f x = g x) → forallb f l = forallb g l.
Proof.
  induction l as [|a l IH]; intros H; [done|]. simpl.
  rewrite (H a) by (by left). rewrite IH; [done|]. intros x Hx. apply H. by right.
Qed.

Lemma elem_of_text_headers (cols : list string) (name : string) :
  Text name ∈ map Text cols ↔ name ∈ cols.
Proof.
  rewrite elem_of_map. split.
  - by intros (x & [= ->] & Hx).
  - intros Hx. by exists name.
Qed.

Lemma text_headers_all_text (cols : list string) :
  forallb header_is_text (map Text cols) = true.
Proof. by induction cols. Qed.

Lemma text_headers_month_count (cols : list string) :
  month_header_count (map Text cols) =
    length (filter (λ col, is_month_column col = true) cols).
Proof.
  unfold month_header_count. induction cols as [|c cols IH]; [done|]. simpl.
  destruct (is_month_column c) eqn:Hm.
  - rewrite !filter_cons_True by done. simpl. by rewrite IH.
  - rewrite !filter_cons_False; [done|by rewrite Hm|]. simpl. by rewrite Hm.
Qed.

(** On the text headers of a table the [except] clause is not entered,
    and the function answers what [identify_ingestion_file_type] does. *)
Lemma identify_ingestion_file_type_text_headers (t : Table) :
  identify_ingestion_file_type_headers (text_headers t) =
    Classified (identify_ingestion_file_type t).
Proof.
  rewrite identify_ingestion_file_type_headers_unfold. unfold text_headers. cbv zeta.
  rewrite text_headers_all_text, text_headers_month_count.
  unfold identify_ingestion_file_type. cbv zeta.
  assert (Hb : ∀ name, bool_decide (Text name ∈ map Text (columns t)) =
                       bool_decide (name ∈ columns t)).
  { intros name. apply bool_decide_ext, elem_of_text_headers. }
  rewrite !Hb.
  assert (Hf : ∀ l, forallb (λ col, bool_decide (Text col ∈ map Text (columns t))) l =
                    forallb (λ col, bool_decide (col ∈ columns t)) l).
  { intros l. apply forallb_ext_elem. intros name _. apply Hb. }
  rewrite !Hf.
  destruct (_ && forallb _ type1_indicators); [done|].
  by destruct (_ && forallb _ type2_indicators).
Qed.



Lemma month_header_count_permutation (hs hs' : list header) :
  hs ≡ₚ hs' → month_header_count hs = month_header_count hs'.
Proof. intros HP. unfold month_header_count. by rewrite HP. Qed.





(** ** The layouts and the error *)

Lemma forallb_text_columns (hs : list header) (indicators : list string) :
  forallb (λ col, bool_decide (Text col ∈ hs)) indicators = true ↔
    ∀ c, c ∈ indicators → Text c ∈ hs.
Proof.
  rewrite forallb_forall. split.
  - intros H c Hc. eapply bool_decide_eq_true_1, H. by apply list_elem_of_In.
  - intros H c Hc. apply bool_decide_eq_true_2, H. by apply list_elem_of_In.
Qed.

Lemma forallb_header_is_text (hs : list header) :
  forallb header_is_text hs = true ↔ ∀ h, h ∈ hs → header_is_text h = true.
Proof.
  rewrite forallb_forall. split; intros H h Hh; apply H; by apply list_elem_of_In.
Qed.

Lemma forallb_header_is_text_false (hs : list header) :
  forallb header_is_text hs = false ↔ ∃ h, h ∈ hs ∧ header_is_text h = false.
Proof.
  induction hs as [|h hs IH]; simpl.
  - split; [done|]. intros (h & Hh & _). by apply elem_of_nil in Hh.
  - rewrite andb_false_iff, IH. split.
    + intros [Hh|(x & Hx & Hf)]; [exists h; split; [by left|done]|].
      exists x. split; [by right|done].
    + intros (x & [->|Hx]%elem_of_cons & Hf); [by left|]. right. by exists x.
Qed.

(** X5. On headers of any kind, the rows layout has priority: the answer
    is Monthly Data in Rows exactly when a facility column and the seven
    indicator columns of that layout are present, whatever else is.  When
    one of the seven is absent and a facility column and the four
    indicators of the columns layout are present, the answer is Monthly
    Data in Columns exactly when every header is text and three or more
    carry a month token, and the error exactly when some header is not
    text; the error is always a [TypeError]. *)
Theorem identify_ingestion_file_type_headers_cases (hs : list header) :
  let facility := Text "Facility Name" ∈ hs ∨ Text "Facility" ∈ hs in
  let rows_layout := ∀ c, c ∈ type1_indicators → Text c ∈ hs in
  let columns_layout := ∀ c, c ∈ type2_indicators → Text c ∈ hs in
  (identify_ingestion_file_type_headers hs = Classified MonthlyRows ↔
     facility ∧ rows_layout) ∧
  (identify_ingestion_file_type_headers hs = Classified MonthlyColumns ↔
     facility ∧ ¬ rows_layout ∧ columns_layout ∧
     (∀ h, h ∈ hs → header_is_text h = true) ∧ 3 ≤ month_header_count hs) ∧
  (identify_ingestion_file_type_headers hs = ClassificationError TypeError ↔
     facility ∧ ¬ rows_layout ∧ columns_layout ∧
     ∃ h, h ∈ hs ∧ header_is_text h = false) ∧
  (∀ e, identify_ingestion_file_type_headers hs = ClassificationError e → e = TypeError).
Proof.
  intros facility rows_layout columns_layout.
  rewrite identify_ingestion_file_type_headers_unfold. cbv zeta.
  assert (Hfac : (bool_decide (Text "Facility Name" ∈ hs)
                  || bool_decide (Text "Facility" ∈ hs)) = true ↔ facility).
  { by rewrite orb_true_iff, !bool_decide_eq_true. }
  pose proof (forallb_text_columns hs type1_indicators) as H1.
  pose proof (forallb_text_columns hs type2_indicators) as H2.
  pose proof (forallb_header_is_text hs) as Ht.
  pose proof (forallb_header_is_text_false hs) as Hnt.
  assert (H3 : (3 <=? month_header_count hs) = true ↔ 3 ≤ month_header_count hs)
    by apply Nat.leb_le.
  destruct (bool_decide (Text "Facility Name" ∈ hs) || bool_decide (Text "Facility" ∈ hs));
  destruct (forallb (λ col, bool_decide (Text col ∈ hs)) type1_indicators);
  destruct (forallb (λ col, bool_decide (Text col ∈ hs)) type2_indicators);
  destruct (forallb header_is_text hs);
  destruct (3 <=? month_header_count hs); simpl;
  repeat match goal with
  | H : true = true ↔ _ |- _ => apply proj1 in H; specialize (H eq_refl)
  | H : false = false ↔ _ |- _ => apply proj1 in H; specialize (H eq_refl)
  | H : false = true ↔ ?P |- _ =>
      let H' := fresh in assert (H' : ¬ P) by (intros ?%H; discriminate); clear H
  | H : true = false ↔ ?P |- _ =>
      let H' := fresh in assert (H' : ¬ P) by (intros ?%H; discriminate); clear H
  end;
  (split_and!;
   [split; [intros Heq; try discriminate Heq; tauto|intros Hh; try reflexivity; exfalso; tauto]
   |split; [intros Heq; try discriminate Heq; tauto|intros Hh; try reflexivity; exfalso; tauto]
   |split; [intros Heq; try discriminate Heq; tauto|intros Hh; try reflexivity; exfalso; tauto]
   |intros e Heq; try discriminate Heq; by injection Heq]).
Qed.

Lemma month_header_count_submseteq (hs hs' : list header) :
  hs ⊆+ hs' → month_header_count hs ≤ month_header_count hs'.
Proof.
  intros [k Hk]%submseteq_Permutation. rewrite (month_header_count_permutation _ _ Hk).
  unfold month_header_count. rewrite filter_app, length_app. lia.
Qed.

(** X6. Adding columns of any kind to headers that are Monthly Data in
    Rows leaves them so; and when all headers after the addition are
    text, headers that were recognised stay recognised.  (A header that
    is not text, added to Monthly Data in Columns, gives the error: see
    C8.) *)
Theorem identify_ingestion_file_type_headers_more_columns (hs hs' : list header) :
  hs ⊆+ hs' →
  (identify_ingestion_file_type_headers hs = Classified MonthlyRows →
   identify_ingestion_file_type_headers hs' = Classified MonthlyRows) ∧
  (forallb header_is_text hs' = true →
   recognised (identify_ingestion_file_type_headers hs) = true →
   recognised (identify_ingestion_file_type_headers hs') = true).
Proof.
  intros Hsub.
  assert (Hmono : ∀ name, bool_decide (Text name ∈ hs) = true →
                          bool_decide (Text name ∈ hs') = true).
  { intros name H%bool_decide_eq_true. apply bool_decide_eq_true.
    by eapply elem_of_submseteq. }
  assert (Hall : ∀ l, forallb (λ col, bool_decide (Text col ∈ hs)) l = true →
                      forallb (λ col, bool_decide (Text col ∈ hs')) l = true).
  { intros l. rewrite !forallb_forall. intros H x Hx. by apply Hmono, H. }
  assert (Hfac : (bool_decide (Text "Facility Name" ∈ hs)
                  || bool_decide (Text "Facility" ∈ hs)) = true →
                 (bool_decide (Text "Facility Name" ∈ hs')
                  || bool_decide (Text "Facility" ∈ hs')) = true).
  { rewrite !orb_true_iff. intros [?|?]; [left|right]; by apply Hmono. }
  pose proof (month_header_count_submseteq _ _ Hsub) as Hcount.
  rewrite !identify_ingestion_file_type_headers_unfold. cbv zeta.
  destruct (bool_decide (Text "Facility Name" ∈ hs) || bool_decide (Text "Facility" ∈ hs));
    [specialize (Hfac eq_refl); rewrite Hfac, !andb_true_l
    |rewrite !andb_false_l; split; [intros H; discriminate H|intros _ H; discriminate H]].
  pose proof (Hall type1_indicators) as H1. pose proof (Hall type2_indicators) as H2.
  destruct (forallb (λ col, bool_decide (Text col ∈ hs)) type1_indicators).
  - rewrite (H1 eq_refl). by split.
  - split.
    { destruct (forallb (λ col, bool_decide (Text col ∈ hs)) type2_indicators),
        (forallb header_is_text hs), (3 <=? month_header_count hs);
        intros H; discriminate H. }
    intros Htext'. rewrite Htext'.
    destruct (forallb (λ col, bool_decide (Text col ∈ hs)) type2_indicators); [|done].
    rewrite (H2 eq_refl).
    destruct (forallb header_is_text hs); [|done].
    destruct (3 <=? month_header_count hs) eqn:E; [|done].
    apply Nat.leb_le in E. intros _.
    destruct (forallb (λ col, bool_decide (Text col ∈ hs')) type1_indicators); [done|].
    assert ((3 <=? month_header_count hs') = true) as -> by (apply Nat.leb_le; lia). done.
Qed.

(** X6 on the rows layout with three columns of the other layout and the
    header 2024 put in front. *)
Lemma identify_ingestion_file_type_headers_more_columns_witness :
  identify_ingestion_file_type_headers
    (header_2024 :: text_headers monthly_rows_and_more) = Classified MonthlyRows.
Proof.
  apply (identify_ingestion_file_type_headers_more_columns (text_headers ingestion_one)
           (header_2024 :: text_headers monthly_rows_and_more)).
  - unfold text_headers. simpl. do 4 apply submseteq_cons. reflexivity.
  - reflexivity.
Defined.

(** ** compare_facility_names and the order of the rows *)

Lemma compare_facility_names_row_order_sets (raw_cols ing_cols : list string)
    (raw_rows raw_rows' ing_rows ing_rows' : list row) :
  raw_rows ≡ₚ raw_rows' →
  ing_rows ≡ₚ ing_rows' →
  compare_facility_names (mkTable raw_cols raw_rows) (mkTable ing_cols ing_rows) =
  compare_facility_names (mkTable raw_cols raw_rows') (mkTable ing_cols ing_rows').
Proof.
  intros Hraw Hing.
  set (raw := mkTable raw_cols raw_rows). set (raw' := mkTable raw_cols raw_rows').
  set (ing := mkTable ing_cols ing_rows). set (ing' := mkTable ing_cols ing_rows').
  assert (Hc : ∀ name, has_column raw name = has_column raw' name) by done.
  assert (Hc' : ∀ name, has_column ing name = has_column ing' name) by done.
  destruct (has_column raw "Facility Name") eqn:H1.
  - destruct (has_column ing "Facility Name" || has_column ing "Facility") eqn:H2.
    + rewrite (compare_facility_names_ok raw ing H1 H2).
      rewrite (compare_facility_names_ok raw' ing'); [|by rewrite <- Hc|by rewrite <- !Hc'].
      assert (ingestion_facility_column ing' = ingestion_facility_column ing) as -> by done.
      unfold raw, raw', ing, ing'.
      by rewrite (facilities_permutation raw_cols _ _ _ Hraw),
        (facilities_permutation ing_cols _ _ _ Hing).
    + apply orb_false_iff in H2 as [H2 H3].
      unfold compare_facility_names. by rewrite <- Hc, <- !Hc', H1, H2, H3.
  - unfold compare_facility_names. by rewrite <- Hc, H1.
Qed.

(** X3. Reordering the rows of either table changes neither the error,
    when there is one, nor any of the five counts, nor which values are
    reported as missing on either side.  (The order in which the two
    returned lists enumerate these values is not part of the
    statement.) *)
Theorem compare_facility_names_row_order (raw_cols ing_cols : list string)
    (raw_rows raw_rows' ing_rows ing_rows' : list row) :
  raw_rows ≡ₚ raw_rows' →
  ing_rows ≡ₚ ing_rows' →
  match compare_facility_names (mkTable raw_cols raw_rows) (mkTable ing_cols ing_rows),
        compare_facility_names (mkTable raw_cols raw_rows') (mkTable ing_cols ing_rows') with
  | FacilityOk r, FacilityOk r' =>
      raw_facilities_count r = raw_facilities_count r' ∧
      ingestion_facilities_count r = ingestion_facilities_count r' ∧
      common_facilities_count r = common_facilities_count r' ∧
      missing_in_raw_count r = missing_in_raw_count r' ∧
      missing_in_ingestion_count r = missing_in_ingestion_count r' ∧
      (∀ c, c ∈ missing_in_raw r ↔ c ∈ missing_in_raw r') ∧
      (∀ c, c ∈ missing_in_ingestion r ↔ c ∈ missing_in_ingestion r')
  | FacilityError msg, FacilityError msg' => msg = msg'
  | FacilityException e, FacilityException e' => e = e'
  | _, _ => False
  end.
Proof.
  intros Hraw Hing.
  rewrite (compare_facility_names_row_order_sets raw_cols ing_cols _ _ _ _ Hraw Hing).
  by destruct (compare_facility_names _ _).
Qed.

(** X3 on the sample tables with their rows reversed. *)
Lemma compare_facility_names_row_order_witness :
  match compare_facility_names (mkTable raw_columns (rows raw_sample))
          (mkTable monthly_rows_columns (rows ingestion_three)),
        compare_facility_names (mkTable raw_columns (reverse (rows raw_sample)))
          (mkTable monthly_rows_columns (reverse (rows ingestion_three))) with
  | FacilityOk r, FacilityOk r' =>
      raw_facilities_count r = raw_facilities_count r' ∧
      ingestion_facilities_count r = ingestion_facilities_count r' ∧
      common_facilities_count r = common_facilities_count r' ∧
      missing_in_raw_count r = missing_in_raw_count r' ∧
      missing_in_ingestion_count r = missing_in_ingestion_count r' ∧
      (∀ c, c ∈ missing_in_raw r ↔ c ∈ missing_in_raw r') ∧
      (∀ c, c ∈ missing_in_ingestion r ↔ c ∈ missing_in_ingestion r')
  | FacilityError msg, FacilityError msg' => msg = msg'
  | FacilityException e, FacilityException e' => e = e'
  | _, _ => False
  end.
Proof.
  apply compare_facility_names_row_order; symmetry; apply reverse_Permutation.
Defined.

(* ===================================================================== *)
(** * map_ghg_emissions_data: when records are returned, and which *)
(* ===================================================================== *)







